(** * freecad-sketch-to-icon: a shallow embedding of [src/index.js]

    The development follows the source file top to bottom:

    - [JsString]   the string primitives the source calls ([split], [join],
                   [trim], [includes], [JSON.stringify]) and the character
                   classes of its regular expressions;
    - [JsNumber]   the ECMAScript Number type (IEEE 754 binary64, taken from
                   the Standard Library's [SpecFloat]) with [parseFloat],
                   [Number], [toFixed] and the Number-to-String conversion;
    - [Regex]      one prefix matcher per regular expression of the source and
                   the drivers for [replace] with the [g] flag and for the
                   [exec] loop;
    - [Icon]       [getAttrValue], [normalizePathData], [findRoot],
                   [extractPaths] and [sketchToIcon].

    Strings are sequences of code units; the model covers code units below
    256 (Rocq's [ascii]).  Exceptions are values of [exn]; a computation that
    may throw returns a [result]. *)

From Stdlib Require Import ZArith List Bool Ascii String Lia.
From Stdlib Require Import Floats.SpecFloat DecimalString.
Import ListNotations.

Set Implicit Arguments.

Local Open Scope string_scope.
Local Open Scope Z_scope.

(* ================================================================== *)
(** ** Exceptions and the error monad *)

(** [throw new Error(message)] is the only [throw] statement form of the
    source; [Number.prototype.toFixed] raises a [RangeError] of its own. *)
Inductive exn : Type :=
| Error (message : string)
| RangeError (message : string).

Inductive result (A : Type) : Type :=
| Ok (value : A)
| Throw (e : exn).

Arguments Ok {A} value.
Arguments Throw {A} e.

Definition bind {A B : Type} (r : result A) (k : A -> result B) : result B :=
  match r with
  | Ok a => k a
  | Throw e => Throw e
  end.

Notation "'let*' x ':=' r 'in' k" := (bind r (fun x => k))
  (at level 10, x pattern, r at level 100, k at level 200).

Definition is_ok {A : Type} (r : result A) : bool :=
  match r with Ok _ => true | Throw _ => false end.

(* ================================================================== *)
(** ** Strings *)

Module JsString.

Definition code (c : ascii) : N := N_of_ascii c.

Definition in_range (lo hi : N) (c : ascii) : bool :=
  (N.leb lo (code c) && N.leb (code c) hi)%bool.

(** [[a-z]] without the [i] flag. *)
Definition is_lower (c : ascii) : bool := in_range 97 122 c.

(** [[a-z]] under the [i] flag: the ASCII letters of both cases (the
    canonicalisation of a code unit above 127 never lands below 128). *)
Definition is_letter (c : ascii) : bool :=
  (in_range 97 122 c || in_range 65 90 c)%bool.

(** [\d]. *)
Definition is_digit (c : ascii) : bool := in_range 48 57 c.

(** [\s], and the characters [trim] and [parseFloat] strip: TAB, LF, VT,
    FF, CR, SPACE and NBSP are the white space and line terminators below
    256. *)
Definition is_space (c : ascii) : bool :=
  (in_range 9 13 c || N.eqb (code c) 32 || N.eqb (code c) 160)%bool.

Definition quote : ascii := ascii_of_N 34.
Definition backslash : ascii := ascii_of_N 92.

Definition str (c : ascii) : string := String c EmptyString.

(** The longest prefix whose characters satisfy [p], and the rest. *)
Fixpoint span (p : ascii -> bool) (s : string) : string * string :=
  match s with
  | EmptyString => (EmptyString, EmptyString)
  | String c s' =>
      if p c then let '(a, b) := span p s' in (String c a, b)
      else (EmptyString, s)
  end.

Fixpoint rev_acc (s acc : string) : string :=
  match s with
  | EmptyString => acc
  | String c s' => rev_acc s' (String c acc)
  end.

Definition rev (s : string) : string := rev_acc s EmptyString.

(** [String.prototype.split] with a one-character separator: never an
    empty array. *)
Fixpoint split (sep : ascii) (s : string) : list string :=
  match s with
  | EmptyString => [EmptyString]
  | String c s' =>
      if Ascii.eqb c sep then EmptyString :: split sep s'
      else match split sep s' with
           | [] => [str c]
           | p :: ps => String c p :: ps
           end
  end.

(** [Array.prototype.join] on an array of strings. *)
Fixpoint join (sep : string) (l : list string) : string :=
  match l with
  | [] => EmptyString
  | [x] => x
  | x :: rest => x ++ sep ++ join sep rest
  end.

Definition trim_start (s : string) : string := snd (span is_space s).

Definition trim (s : string) : string :=
  rev (trim_start (rev (trim_start s))).

Fixpoint starts_with (p s : string) : bool :=
  match p, s with
  | EmptyString, _ => true
  | String a p', String b s' => (Ascii.eqb a b && starts_with p' s')%bool
  | String _ _, EmptyString => false
  end.

(** [String.prototype.includes]. *)
Fixpoint includes (needle s : string) : bool :=
  (starts_with needle s ||
   match s with
   | EmptyString => false
   | String _ s' => includes needle s'
   end)%bool.

Definition hex_digit (n : N) : ascii :=
  if N.ltb n 10 then ascii_of_N (48 + n) else ascii_of_N (87 + n).

(** [JSON.stringify] of a string: quotes around the escaped code units. *)
Definition json_escape (c : ascii) : string :=
  let n := code c in
  if Ascii.eqb c quote then String backslash (str quote)
  else if Ascii.eqb c backslash then String backslash (str backslash)
  else if N.eqb n 8 then String backslash "b"
  else if N.eqb n 9 then String backslash "t"
  else if N.eqb n 10 then String backslash "n"
  else if N.eqb n 12 then String backslash "f"
  else if N.eqb n 13 then String backslash "r"
  else if N.ltb n 32 then
    String backslash ("u00" ++ str (hex_digit (N.div n 16)) ++ str (hex_digit (N.modulo n 16)))
  else str c.

Fixpoint json_body (s : string) : string :=
  match s with
  | EmptyString => EmptyString
  | String c s' => json_escape c ++ json_body s'
  end.

Definition json_stringify (s : string) : string :=
  String quote (json_body s ++ str quote).

End JsString.

(* ================================================================== *)
(** ** Numbers *)

Module JsNumber.
Import JsString.

(** A Number is an IEEE 754 binary64 value. *)
Definition number : Type := spec_float.

Definition prec : Z := 53.
Definition emax : Z := 1024.

Definition NaN : number := S754_nan.
Definition Infinity : number := S754_infinity false.

Definition add : number -> number -> number := SFadd prec emax.
Definition sub : number -> number -> number := SFsub prec emax.
Definition mul : number -> number -> number := SFmul prec emax.
Definition div : number -> number -> number := SFdiv prec emax.

(** [x < y] and [x === y] on Numbers. *)
Definition ltb : number -> number -> bool := SFltb.
Definition strict_eqb : number -> number -> bool := SFeqb.

(** [Number.isNaN]. *)
Definition isNaN (x : number) : bool :=
  match x with S754_nan => true | _ => false end.

Definition isFinite (x : number) : bool :=
  match x with S754_zero _ | S754_finite _ _ _ => true | _ => false end.

(** The Number nearest to the integer [z]. *)
Definition of_Z (z : Z) : number := binary_normalize prec emax z 0 false.

(** The Number nearest to [d * 10^e10] (round to nearest, ties to even),
    for a digit sequence read as the natural number [d]. *)
Definition of_decimal (neg : bool) (d : Z) (e10 : Z) : number :=
  match d with
  | Zpos p =>
      match e10 with
      | Zneg _ =>
          let '(q, e, l) :=
            SFdiv_core_binary prec emax (Zpos p) 0 (10 ^ (- e10)) 0 in
          binary_round_aux prec emax neg q e l
      | _ =>
          match Zpos p * 10 ^ e10 with
          | Zpos m => binary_round prec emax neg m 0
          | _ => S754_zero neg
          end
      end
  | _ => S754_zero neg
  end.

Definition digit_value (c : ascii) : Z := Z.of_N (code c) - 48.

Fixpoint digits_value_acc (s : string) (acc : Z) : Z :=
  match s with
  | EmptyString => acc
  | String c s' => digits_value_acc s' (10 * acc + digit_value c)
  end.

(** The natural number a string of decimal digits denotes. *)
Definition digits_value (s : string) : Z := digits_value_acc s 0.

Definition is_empty (s : string) : bool :=
  match s with EmptyString => true | _ => false end.

(** [ExponentPart], optional: [e] or [E], an optional sign, at least one
    digit.  Returns the exponent and what follows; when no exponent part
    is there, nothing is consumed. *)
Definition exponent_part (s : string) : Z * string :=
  match s with
  | String c r =>
      if (Ascii.eqb c "e" || Ascii.eqb c "E")%bool then
        let '(neg, r1) :=
          match r with
          | String sg r' =>
              if Ascii.eqb sg "-" then (true, r')
              else if Ascii.eqb sg "+" then (false, r')
              else (false, r)
          | EmptyString => (false, r)
          end in
        let '(ds, r2) := span is_digit r1 in
        if is_empty ds then (0, s)
        else ((if neg then - digits_value ds else digits_value ds), r2)
      else (0, s)
  | EmptyString => (0, s)
  end.

Fixpoint drop (n : nat) (s : string) : string :=
  match n, s with
  | O, _ => s
  | S n', String _ s' => drop n' s'
  | S _, EmptyString => EmptyString
  end.

(** The longest prefix of [s] that is a [StrUnsignedDecimalLiteral], as
    the Number it denotes under sign [neg], with the rest of [s]. *)
Definition unsigned_literal (neg : bool) (s : string) : option (number * string) :=
  if starts_with "Infinity" s then Some (S754_infinity neg, drop 8 s)
  else
    let '(ip, r1) := span is_digit s in
    match r1 with
    | String "." r2 =>
        let '(fp, r3) := span is_digit r2 in
        if (is_empty ip && is_empty fp)%bool then None
        else
          let '(e, r4) := exponent_part r3 in
          Some (of_decimal neg (digits_value (ip ++ fp))
                  (e - Z.of_nat (String.length fp)), r4)
    | _ =>
        if is_empty ip then None
        else
          let '(e, r4) := exponent_part r1 in
          Some (of_decimal neg (digits_value ip) e, r4)
    end.

(** [StrDecimalLiteral]: an optional sign before the unsigned literal. *)
Definition decimal_literal (s : string) : option (number * string) :=
  match s with
  | String "-" r => unsigned_literal true r
  | String "+" r => unsigned_literal false r
  | _ => unsigned_literal false s
  end.

(** [Number.parseFloat] on a string: leading white space is skipped, the
    longest literal prefix is read, anything after it is ignored. *)
Definition parseFloat (s : string) : number :=
  match decimal_literal (trim_start s) with
  | Some (x, _) => x
  | None => NaN
  end.

(** [Number(s)] on a string: the whole trimmed string has to be a
    literal; the empty string is [+0].  (The [0x], [0o] and [0b] literals
    are left out: the strings the source converts are matches of
    [/(-?\d+)(\.\d+)/] and results of [toFixed].) *)
Definition Number_of_string (s : string) : number :=
  let t := trim s in
  if is_empty t then S754_zero false
  else match decimal_literal t with
       | Some (x, EmptyString) => x
       | _ => NaN
       end.

(** *** Number to String *)

Definition string_of_nat_Z (z : Z) : string :=
  NilZero.string_of_uint (N.to_uint (Z.to_N z)).

Fixpoint zeros (n : nat) : string :=
  match n with
  | O => EmptyString
  | S n' => String "0" (zeros n')
  end.

Fixpoint take (n : nat) (s : string) : string :=
  match n, s with
  | S n', String c s' => String c (take n' s')
  | _, _ => EmptyString
  end.

(** A positive finite Number [m * 2^e] as the exact fraction [num / den]. *)
Definition fraction (m : positive) (e : Z) : Z * Z :=
  match e with
  | Zneg _ => (Zpos m, 2 ^ (- e))
  | _ => (Zpos m * 2 ^ e, 1)
  end.

(** [num / den * 10^j] as a fraction. *)
Definition scale10 (f : Z * Z) (j : Z) : Z * Z :=
  let '(num, den) := f in
  match j with
  | Zneg _ => (num, den * 10 ^ (- j))
  | _ => (num * 10 ^ j, den)
  end.

Definition floor_frac (f : Z * Z) : Z := fst f / snd f.

(** The least [j >= 0] (searched from [j]) with [f * 10^j >= 1]. *)
Fixpoint first_digit_shift (fuel : nat) (f : Z * Z) (j : Z) : Z :=
  match fuel with
  | O => j
  | S fuel' =>
      if 1 <=? floor_frac (scale10 f j) then j
      else first_digit_shift fuel' f (j + 1)
  end.

(** The integer [n] with [10^(n-1) <= f < 10^n]. *)
Definition magnitude10 (f : Z * Z) : Z :=
  if 1 <=? floor_frac f
  then Z.of_nat (String.length (string_of_nat_Z (floor_frac f)))
  else 1 - first_digit_shift 400 f 0.

(** The candidates with [k] digits for a value of magnitude [n]: the
    integers just below and just above [f / 10^(n-k)], the nearer first,
    the even one first when they are equally near. *)
Definition candidates (f : Z * Z) (n k : Z) : list Z :=
  let g := scale10 f (k - n) in
  let lo := floor_frac g in
  let hi := lo + 1 in
  let twice_rem := 2 * (fst g - lo * snd g) in
  match twice_rem ?= snd g with
  | Lt => [lo; hi]
  | Gt => [hi; lo]
  | Eq => if Z.even lo then [lo; hi] else [hi; lo]
  end.

Definition round_trips (x : number) (s : Z) (e10 : Z) : bool :=
  match SFcompare (of_decimal false s e10) x with
  | Some Eq => true
  | _ => false
  end.

(** The digits [s], their count [k] and the magnitude [n] of the Number
    to String conversion: [k] is the least count for which some [s] with
    [k] digits has [s * 10^(n-k)] convert back to [x]. *)
Fixpoint shortest (fuel : nat) (x : number) (f : Z * Z) (n k : Z) : Z * Z * Z :=
  let found := filter (fun s => round_trips x s (n - k)) (candidates f n k) in
  match found, fuel with
  | s :: _, _ =>
      if s =? 10 ^ k then (1, 1, n + 1) else (s, k, n)
  | [], S fuel' => shortest fuel' x f n (k + 1)
  | [], O => (floor_frac (scale10 f (k - n)), k, n)
  end.

Definition exponent_suffix (n : Z) : string :=
  "e" ++ (if 0 <=? n - 1 then "+" else "-") ++ string_of_nat_Z (Z.abs (n - 1)).

Definition format_digits (s k n : Z) : string :=
  let ds := string_of_nat_Z s in
  if ((k <=? n) && (n <=? 21))%bool then ds ++ zeros (Z.to_nat (n - k))
  else if ((0 <? n) && (n <=? 21))%bool then
    take (Z.to_nat n) ds ++ "." ++ drop (Z.to_nat n) ds
  else if ((-6 <? n) && (n <=? 0))%bool then
    "0." ++ zeros (Z.to_nat (- n)) ++ ds
  else if k =? 1 then ds ++ exponent_suffix n
  else take 1 ds ++ "." ++ drop 1 ds ++ exponent_suffix n.

Definition positive_to_string (m : positive) (e : Z) : string :=
  let f := fraction m e in
  let n := magnitude10 f in
  let '(s, k, n') := shortest 20 (S754_finite false m e) f n 1 in
  format_digits s k n'.

(** [Number::toString] in radix 10, the conversion behind template
    literals, [join] and a [replace] callback's return value. *)
Definition toString (x : number) : string :=
  match x with
  | S754_nan => "NaN"
  | S754_zero _ => "0"
  | S754_infinity false => "Infinity"
  | S754_infinity true => "-Infinity"
  | S754_finite false m e => positive_to_string m e
  | S754_finite true m e => "-" ++ positive_to_string m e
  end.

(** *** toFixed *)

(** The digits of [n] with a point before the last [f] of them. *)
Definition fixed_digits (n : Z) (f : nat) : string :=
  let m := string_of_nat_Z n in
  match f with
  | O => m
  | S _ =>
      let k := String.length m in
      let m' := if Nat.leb k f then zeros (f + 1 - k) ++ m else m in
      let k' := String.length m' in
      take (k' - f) m' ++ "." ++ drop (k' - f) m'
  end.

(** [Number.prototype.toFixed(fractionDigits)] for an integral
    [fractionDigits]: out of [0..100] it raises a RangeError; a value of
    [10^21] or more is rendered by [toString]; otherwise the integer [n]
    nearest to [x * 10^f] (the larger of two) is written with [f]
    fractional digits. *)
Definition toFixed (x : number) (fractionDigits : Z) : result string :=
  if ((fractionDigits <? 0) || (100 <? fractionDigits))%bool then
    Throw (RangeError "toFixed() digits argument must be between 0 and 100")
  else
    match x with
    | S754_finite sg m e =>
        let fr := fraction m e in
        if 10 ^ 21 <=? floor_frac fr then Ok (toString x)
        else
          let '(num, den) := scale10 fr fractionDigits in
          let n := (2 * num + den) / (2 * den) in
          Ok ((if sg then "-" else "") ++ fixed_digits n (Z.to_nat fractionDigits))
    | S754_zero _ => Ok (fixed_digits 0 (Z.to_nat fractionDigits))
    | _ => Ok (toString x)
    end.

End JsNumber.

(* ================================================================== *)
(** ** Regular expressions *)

(** Each regular expression of the source is a matcher for a match that
    starts at the very beginning of the given string: it returns what the
    source reads off the match and the rest of the string after it.  All of
    them are built from greedy runs over a character class followed by a
    character outside the class, so the longest run is the only one that
    can succeed and no shorter alternative has to be tried. *)
Module Regex.
Import JsString.

Definition not_letter (c : ascii) : bool := negb (is_letter c).
Definition not_rparen (c : ascii) : bool := negb (Ascii.eqb c ")").

(** [/([^a-z]+)([a-z])/i]: the groups [$1] and [$2]. *)
Definition rx_value_command (s : string) : option ((string * ascii) * string) :=
  match span not_letter s with
  | (String c run, String l rest) => Some ((String c run, l), rest)
  | _ => None
  end.

(** [/\s\s+/]: the matched text. *)
Definition rx_spaces (s : string) : option (string * string) :=
  match s with
  | String c r =>
      if is_space c then
        match span is_space r with
        | (String c' run, rest) => Some (String c (String c' run), rest)
        | _ => None
        end
      else None
  | EmptyString => None
  end.

(** [/[a-z][^a-z]+/i]: the matched text. *)
Definition rx_command (s : string) : option (string * string) :=
  match s with
  | String l r =>
      if is_letter l then
        match span not_letter r with
        | (String c run, rest) => Some (String l (String c run), rest)
        | _ => None
        end
      else None
  | EmptyString => None
  end.

Definition rx_unsigned_decimal (s : string) : option (string * string) :=
  match span is_digit s with
  | (String d ip, String "." r) =>
      match span is_digit r with
      | (String d' fp, rest) =>
          Some (String d ip ++ "." ++ String d' fp, rest)
      | _ => None
      end
  | _ => None
  end.

(** [/(-?\d+)(\.\d+)/]: the matched text. *)
Definition rx_decimal (s : string) : option (string * string) :=
  match s with
  | String "-" r =>
      match rx_unsigned_decimal r with
      | Some (m, rest) => Some (String "-" m, rest)
      | None => None
      end
  | _ => rx_unsigned_decimal s
  end.

(** The regular expression [tfrx] of [extractPaths]: one or more of
    [a-z] (group 1), an opening parenthesis, any number of characters
    other than a closing parenthesis (group 2), a closing parenthesis.
    Returns [match[1]] and [match[2]]. *)
Definition tfrx (s : string) : option ((string * string) * string) :=
  match span is_lower s with
  | (String c name, String "(" r) =>
      match span not_rparen r with
      | (args, String _ rest) => Some ((String c name, args), rest)
      | _ => None
      end
  | _ => None
  end.

Section Drivers.
Variable M : Type.
Variable matcher : string -> option (M * string).

(** [RegExp.prototype.exec] on a global regular expression whose
    [lastIndex] points at the beginning of [s]: the leftmost match. *)
Fixpoint exec (s : string) : option (M * string) :=
  match matcher s with
  | Some r => Some r
  | None =>
      match s with
      | EmptyString => None
      | String _ s' => exec s'
      end
  end.

Variable replacer : M -> result string.

(** [String.prototype.replace] with a global regular expression and a
    callback: matches are replaced left to right, the text between
    them is copied, and the first callback that throws ends the call.
    A match consumes at least one character, so [fuel] above the
    length of [s] is never used up. *)
Fixpoint replace_from (fuel : nat) (s : string) : result string :=
  match fuel with
  | O => Ok s
  | S fuel' =>
      match matcher s with
      | Some (m, rest) =>
          let* r := replacer m in
          let* t := replace_from fuel' rest in
          Ok (r ++ t)
      | None =>
          match s with
          | EmptyString => Ok EmptyString
          | String c s' =>
              let* t := replace_from fuel' s' in
              Ok (String c t)
          end
      end
  end.

Definition replace (s : string) : result string :=
  replace_from (S (String.length s)) s.

End Drivers.

End Regex.

(* ================================================================== *)
(** ** The converter *)

Module Icon.
Import JsString JsNumber Regex.

(** *** The parse5 tree

    Elements carry [attrs] and [childNodes]; text and comment nodes carry
    neither, which is why the source reads both through [?.]. *)
Record attr : Type := { name : string; value : string }.

#[local] Unset Elimination Schemes.
Inductive node : Type :=
  Node { nodeName : string;
         attrs : option (list attr);
         childNodes : option (list node) }.
#[local] Set Elimination Schemes.

Record TransformContext : Type :=
  { translate : number * number; scale : number * number }.

(** [options.x ?? d]. *)
Definition nullish {A : Type} (o : option A) (d : A) : A :=
  match o with Some a => a | None => d end.

Definition getAttrValue (n : node) (nm : string) : option string :=
  match attrs n with
  | Some l =>
      match find (fun a => String.eqb (name a) nm) l with
      | Some a => Some (value a)
      | None => None
      end
  | None => None
  end.

(** [!s] is false exactly for a non-empty string. *)
Definition truthy (o : option string) : bool :=
  match o with
  | Some (String _ _) => true
  | _ => false
  end.

(** *** Array elements

    [command.split(" ")] is an array of strings into which the source
    writes Numbers and strings; an index past the end reads [undefined]
    and a write past the end leaves holes. *)
Inductive jsvalue : Type :=
| VString (s : string)
| VNumber (x : number)
| VUndefined.

Definition to_string (v : jsvalue) : string :=
  match v with
  | VString s => s
  | VNumber x => toString x
  | VUndefined => "undefined"
  end.

Definition arr_get (a : list jsvalue) (i : nat) : jsvalue := nth i a VUndefined.

Fixpoint arr_set (a : list jsvalue) (i : nat) (v : jsvalue) : list jsvalue :=
  match i, a with
  | O, [] => [v]
  | O, _ :: t => v :: t
  | S i', [] => VUndefined :: arr_set [] i' v
  | S i', x :: t => x :: arr_set t i' v
  end.

(** [Array.prototype.join]: [undefined] and holes give the empty string. *)
Definition arr_join (sep : string) (a : list jsvalue) : string :=
  join sep (map (fun v => match v with VUndefined => "" | _ => to_string v end) a).

(** [Number.parseFloat(v)]: the argument is converted to a string first. *)
Definition parseFloat_value (v : jsvalue) : number := parseFloat (to_string v).

Definition is_string (v : jsvalue) (s : string) : bool :=
  match v with VString t => String.eqb t s | _ => false end.

(** *** [normalizePathData] *)

Definition unsupported_command (p0 : jsvalue) : exn :=
  Error ("path command " ++ str quote ++ to_string p0 ++ str quote
         ++ " is currently not supported").

(** The callback of [// Apply transforms:]. *)
Definition transform_command (context : TransformContext) (invertArcs : bool)
    (command : string) : result string :=
  let '(tx, ty) := translate context in
  let '(sx, sy) := scale context in
  let parts := map VString (split " " command) in
  let p0 := arr_get parts 0 in
  if (is_string p0 "M" || is_string p0 "L")%bool then
    let parts := arr_set parts 1
      (VNumber (add (mul (parseFloat_value (arr_get parts 1)) sx) tx)) in
    let parts := arr_set parts 2
      (VNumber (add (mul (parseFloat_value (arr_get parts 2)) sy) ty)) in
    Ok (arr_join " " parts)
  else if is_string p0 "A" then
    let parts := arr_set parts 1
      (VNumber (mul (parseFloat_value (arr_get parts 1)) sx)) in
    let parts := arr_set parts 2
      (VNumber (mul (parseFloat_value (arr_get parts 2)) sy)) in
    let parts :=
      if invertArcs then
        let parts := arr_set parts 3
          (VNumber (mul (parseFloat_value (arr_get parts 3)) (of_Z (-1)))) in
        arr_set parts 5
          (if strict_eqb (parseFloat_value (arr_get parts 5)) (of_Z 1)
           then VString "0" else VString "1")
      else parts in
    let parts := arr_set parts 6
      (VNumber (add (mul (parseFloat_value (arr_get parts 6)) sx) tx)) in
    let parts := arr_set parts 7
      (VNumber (add (mul (parseFloat_value (arr_get parts 7)) sy) ty)) in
    Ok (arr_join " " parts)
  else Throw (unsupported_command p0).

(** The callback of [// Apply precision limit:]; [replace] converts the
    Number it returns to a string. *)
Definition limit_precision (precision : Z) (x : string) : result string :=
  let* fixed := toFixed (Number_of_string x) precision in
  Ok (toString (Number_of_string fixed)).

(** The replacement ["$1 $2"]. *)
Definition space_between (groups : string * ascii) : result string :=
  Ok (fst groups ++ " " ++ str (snd groups)).

(** The replacement [" "]. *)
Definition single_space (matched : string) : result string := Ok " ".

Definition normalizePathData (data : string) (context : TransformContext)
    (precision : Z) : result string :=
  let invertArcs :=
    ltb (mul (fst (scale context)) (snd (scale context))) (of_Z 0) in
  (* Add spaces between values and following path commands: *)
  let* s1 := replace rx_value_command space_between data in
  (* Collapse whitespace: *)
  let* s2 := replace rx_spaces single_space s1 in
  (* Apply transforms: *)
  let* s3 := replace rx_command (transform_command context invertArcs) s2 in
  (* Apply precision limit: *)
  replace rx_decimal (limit_precision precision) s3.

(** *** The transform attribute *)

Definition invalid_parameters (args : string) : exn :=
  Error ("invalid translate parameters: " ++ json_stringify args).

Definition unsupported_transform (nm : string) : exn :=
  Error ("transform command " ++ str quote ++ nm ++ str quote
         ++ " is currently not supported").

(** The body of the [for] loop of [extractPaths]: one match of [tfrx],
    with [nm] for [match[1]] and [args] for [match[2]]. *)
Definition transform_token (nm args : string) (context : TransformContext)
    : result TransformContext :=
  let parts := split "," args in
  if String.eqb nm "translate" then
    match parts with
    | [p0; p1] =>
        Ok {| translate :=
                (add (mul (fst (scale context)) (parseFloat (trim p0)))
                     (fst (translate context)),
                 add (mul (snd (scale context)) (parseFloat (trim p1)))
                     (snd (translate context)));
              scale := scale context |}
    | _ => Throw (invalid_parameters args)
    end
  else if String.eqb nm "scale" then
    match parts with
    | [p0; p1] =>
        Ok {| translate := translate context;
              scale :=
                (mul (fst (scale context)) (parseFloat (trim p0)),
                 mul (snd (scale context)) (parseFloat (trim p1))) |}
    | _ => Throw (invalid_parameters args)
    end
  else Throw (unsupported_transform nm).

(** The [for] loop: [tfrx.exec] resumes after the previous match, here on
    the rest of the string; a match has at least three characters. *)
Fixpoint transform_loop (fuel : nat) (rest : string) (context : TransformContext)
    : result TransformContext :=
  match fuel with
  | O => Ok context
  | S fuel' =>
      match exec tfrx rest with
      | None => Ok context
      | Some ((nm, args), rest') =>
          let* context' := transform_token nm args context in
          transform_loop fuel' rest' context'
      end
  end.

(** [tfrx.exec(transform)] converts a missing attribute to the string
    ["undefined"], in which nothing matches. *)
Definition apply_transform (transform : option string) (context : TransformContext)
    : result TransformContext :=
  let s := nullish transform "undefined" in
  transform_loop (String.length s) s context.

(** *** [extractPaths] *)

Definition unsupported_element (nm : string) : exn :=
  Error ("<" ++ nm ++ "> is currently not supported").

Definition style_transform : exn :=
  Error "style transforms are currently not supported".

Definition unsupported_kind (nm : string) : bool :=
  (String.eqb nm "rect" || String.eqb nm "circle" || String.eqb nm "ellipse"
   || String.eqb nm "line" || String.eqb nm "polyline")%bool.

(** The [switch (node.nodeName)]: what [paths] is after it. *)
Definition visit (precision : Z) (n : node) (context : TransformContext)
    (paths : list string) : result (list string) :=
  if unsupported_kind (nodeName n) then Throw (unsupported_element (nodeName n))
  else if String.eqb (nodeName n) "path" then
    let data := getAttrValue n "d" in
    if truthy data then
      let* p := normalizePathData (nullish data "") context precision in
      Ok (paths ++ [p])%list
    else Ok paths
  else Ok paths.

(** The statements of [extractPaths] before the recursion: the style
    check, the transform attribute, the [switch]. *)
Definition enter (precision : Z) (n : node) (context : TransformContext)
    (paths : list string) : result (TransformContext * list string) :=
  let style := getAttrValue n "style" in
  if match style with Some s => includes "transform" s | None => false end
  then Throw style_transform
  else
    let* context' := apply_transform (getAttrValue n "transform") context in
    let* paths' := visit precision n context' paths in
    Ok (context', paths').

Section ForEach.
Variable visit_child : node -> list string -> result (list string).

(** [childNodes.forEach(c => ...)] around a callback that appends to
    [paths] and may throw. *)
Fixpoint forEach (cs : list node) (paths : list string) : result (list string) :=
  match cs with
  | [] => Ok paths
  | c :: cs' =>
      let* paths' := visit_child c paths in
      forEach cs' paths'
  end.
End ForEach.

(** [paths] is the array the closure appends to: it is threaded through
    the traversal.  [node.childNodes?.forEach] visits nothing when there
    is no [childNodes]. *)
Fixpoint extractPaths (precision : Z) (n : node) (context : TransformContext)
    (paths : list string) {struct n} : result (list string) :=
  match enter precision n context paths with
  | Throw e => Throw e
  | Ok (context', paths') =>
      match childNodes n with
      | None => Ok paths'
      | Some cs =>
          forEach (fun c => extractPaths precision c context') cs paths'
      end
  end.

(** *** [sketchToIcon] *)

Record options : Type :=
  { input : string;
    exportedPaddingFactor : option number;
    fill : option string;
    fillRule : option string;
    precision : option Z }.

Fixpoint findRoot (n : node) : option node :=
  if String.eqb (nodeName n) "svg" then Some n
  else
    match childNodes n with
    | Some cs =>
        (fix first (cs : list node) : option node :=
           match cs with
           | [] => None
           | c :: cs' =>
               match findRoot c with
               | Some r => Some r
               | None => first cs'
               end
           end) cs
    | None => None
    end.

Definition missing_root : exn :=
  Error "input svg does not contain an <svg> element".
Definition missing_viewBox : exn :=
  Error "<svg> element does not have a viewBox attribute".
Definition invalid_viewBox : exn :=
  Error "<svg> element has an invalid viewBox attribute".

(** Lines 47 to 59: [(xOffset, yOffset, width, height)]. *)
Definition viewport (root : node) (exportedPaddingFactor : number)
    : result (number * number * number * number) :=
  let viewBoxStr := getAttrValue root "viewBox" in
  if negb (truthy viewBoxStr) then Throw missing_viewBox
  else
    let viewBoxParts := map VString (split " " (nullish viewBoxStr "")) in
    let pad2 := add (of_Z 1) (mul exportedPaddingFactor (of_Z 2)) in
    let width := div (parseFloat_value (arr_get viewBoxParts 2)) pad2 in
    let height := div (parseFloat_value (arr_get viewBoxParts 3)) pad2 in
    let xOffset := sub (parseFloat_value (arr_get viewBoxParts 0))
                       (mul width exportedPaddingFactor) in
    let yOffset := sub (parseFloat_value (arr_get viewBoxParts 1))
                       (mul height exportedPaddingFactor) in
    if existsb isNaN [xOffset; yOffset; width; height] then Throw invalid_viewBox
    else Ok (xOffset, yOffset, width, height).

Definition attribute (nm v : string) : string :=
  nm ++ "=" ++ str quote ++ v ++ str quote.

(** The template literal of the [return] statement. *)
Definition document (width height : number) (paths : list string)
    (fill fillRule : string) : string :=
  "<svg " ++ attribute "xmlns" "http://www.w3.org/2000/svg"
  ++ " " ++ attribute "version" "1.1"
  ++ " " ++ attribute "viewBox" ("0 0 " ++ toString width ++ " " ++ toString height)
  ++ "><path " ++ attribute "d" (join " " paths)
  ++ " " ++ attribute "fill" fill
  ++ " " ++ attribute "fill-rule" fillRule
  ++ " /></svg>".

Definition default_padding : number := of_decimal false 1 (-2).

(** [sketchToIcon] from the parsed tree on. *)
Definition sketchToIconTree (tree : node) (o : options) : result string :=
  let precision := nullish (precision o) 5 in
  match findRoot tree with
  | None => Throw missing_root
  | Some root =>
      let exportedPaddingFactor := nullish (exportedPaddingFactor o) default_padding in
      let* (xOffset, yOffset, width, height) := viewport root exportedPaddingFactor in
      let* paths :=
        extractPaths precision root
          {| translate := (xOffset, yOffset);
             scale := (of_Z 1, of_Z 1) |} [] in
      let fill := nullish (fill o) "currentColor" in
      let fillRule := nullish (fillRule o) "evenodd" in
      Ok (document width height paths fill fillRule)
  end.

Section Parser.
(** [parseFragment] of the parse5 package. *)
Variable parseFragment : string -> node.

Definition sketchToIcon (o : options) : result string :=
  sketchToIconTree (parseFragment (input o)) o.
End Parser.

End Icon.

(* ================================================================== *)
(** ** Sample documents *)

Module Samples.
Import JsString JsNumber Regex Icon.

Definition element (nm : string) (a : list (string * string)) (cs : list node) : node :=
  Node nm (Some (map (fun '(n, v) => {| name := n; value := v |}) a)) (Some cs).


Definition defaults : options :=
  {| input := ""; exportedPaddingFactor := None; fill := None;
     fillRule := None; precision := None |}.

Definition no_padding : options :=
  {| input := ""; exportedPaddingFactor := Some (of_Z 0); fill := None;
     fillRule := None; precision := None |}.

(** Translation [(0, 0)], scale [(1, 1)]. *)
Definition identity : TransformContext :=
  {| translate := (of_Z 0, of_Z 0); scale := (of_Z 1, of_Z 1) |}.

(** [<svg viewBox="10 20 100 100"><path d="M 15 25 L 60 70"/></svg>] *)
Definition offset_sketch : node :=
  element "svg" [("viewBox", "10 20 100 100")]
    [element "path" [("d", "M 15 25 L 60 70")] []].





End Samples.

(* ================================================================== *)
(** ** Properties *)

Module Properties.
Import JsString JsNumber Regex Icon Samples.

#[local] Unset Implicit Arguments.

(** *** Strings *)

Lemma append_assoc (a b c : string) : (a ++ b) ++ c = a ++ (b ++ c).
Proof. induction a as [|x a IH]; cbn; [reflexivity | rewrite IH; reflexivity]. Qed.

Lemma append_nil_r (a : string) : a ++ "" = a.
Proof. induction a as [|x a IH]; cbn; [reflexivity | rewrite IH; reflexivity]. Qed.

Lemma length_append (a b : string) :
  String.length (a ++ b) = (String.length a + String.length b)%nat.
Proof. induction a as [|x a IH]; cbn; [reflexivity | rewrite IH; reflexivity]. Qed.

Lemma span_append (p : ascii -> bool) (s a b : string) :
  span p s = (a, b) -> s = a ++ b.
Proof.
  revert a b. induction s as [|c s IH]; cbn; intros a b E.
  - injection E as <- <-. reflexivity.
  - destruct (p c).
    + destruct (span p s) as [a' b']. injection E as <- <-.
      cbn. rewrite (IH a' b' eq_refl). reflexivity.
    + injection E as <- <-. reflexivity.
Qed.

Lemma span_length (p : ascii -> bool) (s a b : string) :
  span p s = (a, b) -> String.length s = (String.length a + String.length b)%nat.
Proof. intros E. rewrite (span_append p s a b E). apply length_append. Qed.

(** *** Matchers consume input *)

Definition shrinking {M : Type} (matcher : string -> option (M * string)) : Prop :=
  forall s m rest, matcher s = Some (m, rest) ->
    (String.length rest < String.length s)%nat.

Lemma exec_shrinking {M : Type} (matcher : string -> option (M * string)) :
  shrinking matcher -> shrinking (exec matcher).
Proof.
  intros H s. induction s as [|c s IH]; intros m rest; cbn.
  - destruct (matcher "") as [r|] eqn:E; [|discriminate].
    intros Er. injection Er as ->. exact (H _ _ _ E).
  - destruct (matcher (String c s)) as [r|] eqn:E.
    + intros Er. injection Er as ->. exact (H _ _ _ E).
    + intros Er. apply IH in Er. cbn. lia.
Qed.

Lemma tfrx_shrinking : shrinking tfrx.
Proof.
  intros s m rest. unfold tfrx.
  destruct (span is_lower s) as [a b] eqn:E1.
  destruct a as [|c nm]; [discriminate|].
  destruct b as [|c' r]; [discriminate|].
  destruct (Ascii.eqb_spec c' "("%char) as [->|Hne].
  - destruct (span not_rparen r) as [args b2] eqn:E2.
    destruct b2 as [|c2 rest']; [discriminate|].
    intros Er. injection Er as <- <-.
    apply span_length in E1. apply span_length in E2.
    rewrite E1. cbn. rewrite E2. cbn. lia.
  - destruct c' as [[] [] [] [] [] [] [] []]; try discriminate.
    exfalso. apply Hne. reflexivity.
Qed.

Lemma rx_unsigned_decimal_shrinking : shrinking rx_unsigned_decimal.
Proof.
  intros s m rest. unfold rx_unsigned_decimal.
  destruct (span is_digit s) as [a b] eqn:E1.
  destruct a as [|d ip]; [discriminate|].
  destruct b as [|c r]; [discriminate|].
  destruct (Ascii.eqb_spec c "."%char) as [->|Hne].
  - destruct (span is_digit r) as [a2 rest'] eqn:E2.
    destruct a2 as [|d' fp]; [discriminate|].
    intros H. injection H as _ <-.
    apply span_length in E1. apply span_length in E2.
    rewrite E1. cbn. rewrite E2. cbn. lia.
  - destruct c as [[] [] [] [] [] [] [] []]; try discriminate.
    exfalso. apply Hne. reflexivity.
Qed.

Lemma rx_decimal_shrinking : shrinking rx_decimal.
Proof.
  intros s m rest. unfold rx_decimal.
  destruct s as [|c r].
  - apply rx_unsigned_decimal_shrinking.
  - destruct (Ascii.eqb_spec c "-"%char) as [->|Hne].
    + destruct (rx_unsigned_decimal r) as [[m' rest']|] eqn:E; [|discriminate].
      intros H. injection H as _ <-.
      apply rx_unsigned_decimal_shrinking in E. cbn. lia.
    + destruct c as [[] [] [] [] [] [] [] []];
        try apply rx_unsigned_decimal_shrinking.
      exfalso. apply Hne. reflexivity.
Qed.

(** Fuel above the length of the string is never used up: with a matcher
    that consumes input, [replace] does not depend on it. *)
Lemma replace_from_enough {M : Type} (matcher : string -> option (M * string))
    (replacer : M -> result string) :
  shrinking matcher ->
  forall f1 f2 s,
    (String.length s < f1)%nat -> (String.length s < f2)%nat ->
    replace_from matcher replacer f1 s = replace_from matcher replacer f2 s.
Proof.
  intros Hm. induction f1 as [|f1 IH]; intros f2 s H1 H2; [lia|].
  destruct f2 as [|f2]; [lia|]. cbn [replace_from].
  destruct (matcher s) as [[m rest]|] eqn:E.
  - apply Hm in E. rewrite (IH f2 rest); [reflexivity | lia | lia].
  - destruct s as [|c s']; [reflexivity|]. cbn in H1, H2.
    rewrite (IH f2 s'); [reflexivity | lia | lia].
Qed.

(** *** The viewbox origin *)

(** C1.  With padding factor 0 and a single path without transform, the
    conversion of [offset_sketch] (viewbox origin [(10, 20)]) writes the
    point [(15, 25)] as [25 45] and [(60, 70)] as [70 90]: the origin is
    added to every coordinate.  Subtracting it, which is what maps the
    declared frame onto the emitted frame [0 0 100 100], would give
    [M 5 5 L 50 50]. *)
Theorem C1_origin_is_added :
  sketchToIconTree offset_sketch no_padding
    = Ok (document (of_Z 100) (of_Z 100) ["M 25 45 L 70 90"] "currentColor" "evenodd")
  /\ sketchToIconTree offset_sketch no_padding
    <> Ok (document (of_Z 100) (of_Z 100) ["M 5 5 L 50 50"] "currentColor" "evenodd").
Proof.
  assert (E : sketchToIconTree offset_sketch no_padding
    = Ok (document (of_Z 100) (of_Z 100) ["M 25 45 L 70 90"] "currentColor" "evenodd"))
    by (vm_compute; reflexivity).
  split; [exact E|].
  rewrite E. vm_compute. discriminate.
Qed.

(** *** Precision *)

(** C4.  At precision 5 and under the identity context the coordinate
    [0.00000015] is written [1.5e-7]: the transform step renders the
    Number in exponent notation, [/(-?\d+)(\.\d+)/] then matches only
    [1.5], and the output keeps eight fractional digits in scientific
    notation.  The same happens to the residue of a cancellation
    ([0.3 - 0.30000000000000004]).  The precision step itself yields
    exponent notation for a literal of 22 integer digits, and for
    [0.0000001] at precision 7. *)
Theorem C4_exponent_notation_survives :
  normalizePathData "M 0.00000015 0" identity 5 = Ok "M 1.5e-7 0"
  /\ normalizePathData "M 0.3 0"
       {| translate := (parseFloat "-0.30000000000000004", of_Z 0);
          scale := (of_Z 1, of_Z 1) |} 5
     = Ok "M -5.55112e-17 0"
  /\ limit_precision 5 "1000000000000000000000.5" = Ok "1e+21"
  /\ limit_precision 7 "0.0000001" = Ok "1e-7".
Proof. repeat split; vm_compute; reflexivity. Qed.

(** C7.  [M 1.5e-7 0] is the result of normalizing [M 0.00000015 0] at
    precision 5; normalizing it again under the identity context at
    precision 5 throws, because the [e] of the exponent is read as a path
    command.  A coordinate pair written with a comma normalizes to a
    string with [NaN], which a second normalization changes. *)
Theorem C7_second_pass_differs :
  normalizePathData "M 0.00000015 0" identity 5 = Ok "M 1.5e-7 0"
  /\ normalizePathData "M 1.5e-7 0" identity 5
     = Throw (unsupported_command (VString "e-7"))
  /\ normalizePathData "M 1,2" identity 5 = Ok "M 1 NaN"
  /\ normalizePathData "M 1 NaN" identity 5 = Ok "M 1 NaNNaN".
Proof. repeat split; vm_compute; reflexivity. Qed.

(** *** The viewport *)

Lemma nan_div_l y : div NaN y = NaN.
Proof. reflexivity. Qed.

Lemma nan_sub_l y : sub NaN y = NaN.
Proof. reflexivity. Qed.

Lemma nan_sub_r x : sub x NaN = NaN.
Proof. destruct x; reflexivity. Qed.

Lemma isNaN_eq x : isNaN x = true -> x = NaN.
Proof. destruct x; simpl; intros E; try discriminate E; reflexivity. Qed.

Section Viewport.
Variable vb : string.
Variable f : number.

(** The four numbers parsed from the viewBox string [vb] and the four
    values lines 53 to 56 derive from them. *)
Definition parsed (i : nat) : number :=
  parseFloat_value (arr_get (map VString (split " " vb)) i).

Definition width : number := div (parsed 2) (add (of_Z 1) (mul f (of_Z 2))).
Definition height : number := div (parsed 3) (add (of_Z 1) (mul f (of_Z 2))).
Definition xOffset : number := sub (parsed 0) (mul width f).
Definition yOffset : number := sub (parsed 1) (mul height f).

Lemma parsed_nan_derived_nan :
  existsb isNaN [parsed 0; parsed 1; parsed 2; parsed 3] = true ->
  existsb isNaN [xOffset; yOffset; width; height] = true.
Proof.
  simpl. rewrite !orb_false_r, !orb_true_iff.
  intros [H | [H | [H | H]]]; apply isNaN_eq in H.
  - left. unfold xOffset. rewrite H. reflexivity.
  - right; left. unfold yOffset. rewrite H. reflexivity.
  - right; right; left. unfold width. rewrite H. reflexivity.
  - right; right; right. unfold height. rewrite H. reflexivity.
Qed.
End Viewport.

Lemma viewport_eq root f vb :
  getAttrValue root "viewBox" = Some vb -> vb <> "" ->
  viewport root f =
    if existsb isNaN [xOffset vb f; yOffset vb f; width vb f; height vb f]
    then Throw invalid_viewBox
    else Ok (xOffset vb f, yOffset vb f, width vb f, height vb f).
Proof.
  intros H Hne. unfold viewport. rewrite H.
  destruct vb as [|c vb']; [congruence|]. reflexivity.
Qed.

(** C6, as the code has it.  The resolver fails with the invalid-viewBox
    error exactly when one of the derived values [xOffset], [yOffset],
    [width], [height] is NaN, which is the case whenever one of the four
    parsed numbers is NaN; otherwise it returns the four derived values,
    whatever their sign and whether finite or not. *)
Theorem C6_viewport_rejects_NaN (root : node) (f : number) (vb : string) :
  getAttrValue root "viewBox" = Some vb -> vb <> "" ->
  (existsb isNaN [parsed vb 0; parsed vb 1; parsed vb 2; parsed vb 3] = true ->
     viewport root f = Throw invalid_viewBox)
  /\ (existsb isNaN [xOffset vb f; yOffset vb f; width vb f; height vb f] = true ->
     viewport root f = Throw invalid_viewBox)
  /\ (existsb isNaN [xOffset vb f; yOffset vb f; width vb f; height vb f] = false ->
     viewport root f = Ok (xOffset vb f, yOffset vb f, width vb f, height vb f)).
Proof.
  intros H Hne. rewrite (viewport_eq root f vb H Hne).
  split; [|split]; intros E.
  - rewrite (parsed_nan_derived_nan vb f E). reflexivity.
  - rewrite E. reflexivity.
  - rewrite E. reflexivity.
Qed.

Lemma C6_viewport_rejects_NaN_witness :
  viewport (element "svg" [("viewBox", "0 0 abc 100")] []) default_padding
    = Throw invalid_viewBox.
Proof.
  refine (proj1 (@C6_viewport_rejects_NaN
    (element "svg" [("viewBox", "0 0 abc 100")] []) default_padding
    "0 0 abc 100" _ _) _).
  - reflexivity.
  - discriminate.
  - vm_compute. reflexivity.
Defined.

(** C6, counterexample.  For [viewBox="0 0 Infinity 100"] and the default
    padding factor the parsed width is not finite, the derived [xOffset]
    and [width] are not finite, and the resolver returns them; the whole
    conversion succeeds.  For [viewBox="0 0 -5 0"] it returns a negative
    width and a zero height. *)
Lemma C6_infinite_viewbox_accepted :
  isFinite (parseFloat "Infinity") = false
  /\ viewport (element "svg" [("viewBox", "0 0 Infinity 100")] []) default_padding
     = Ok (S754_infinity true, parseFloat "-0.9803921568627451",
           S754_infinity false, parseFloat "98.0392156862745")
  /\ is_ok (sketchToIconTree
              (element "svg" [("viewBox", "0 0 Infinity 100")] []) defaults) = true
  /\ viewport (element "svg" [("viewBox", "0 0 -5 0")] []) default_padding
     = Ok (parseFloat "0.04901960784313726", of_Z 0,
           parseFloat "-4.901960784313726", of_Z 0).
Proof. repeat split; vm_compute; reflexivity. Qed.

(** *** The walker *)

Lemma node_ind (P : node -> Prop) :
  (forall nm a cs, (forall l, cs = Some l -> Forall P l) -> P (Node nm a cs)) ->
  forall n, P n.
Proof.
  intros H. fix IH 1. intros [nm a [l0|]]; apply H.
  - assert (F : Forall P l0)
      by (induction l0 as [|c l0 IHl]; constructor; [apply IH | exact IHl]).
    intros l E. injection E as <-. exact F.
  - intros l E. discriminate E.
Qed.

Lemma extractPaths_eq precision n context paths :
  extractPaths precision n context paths =
    let* (context', paths') := enter precision n context paths in
    forEach (fun c => extractPaths precision c context')
      (nullish (childNodes n) []) paths'.
Proof.
  destruct n as [nm a cs]. cbn [extractPaths bind].
  destruct (enter precision (Node nm a cs) context paths) as [[c' p']|e];
    [|reflexivity].
  cbn [childNodes]. destruct cs; reflexivity.
Qed.

Definition style_ok (n : node) : Prop :=
  match getAttrValue n "style" with
  | Some s => includes "transform" s
  | None => false
  end = false.

Lemma enter_eq precision n context context' paths :
  style_ok n ->
  apply_transform (getAttrValue n "transform") context = Ok context' ->
  enter precision n context paths =
    let* paths' := visit precision n context' paths in Ok (context', paths').
Proof.
  unfold style_ok, enter. intros Hs Ht. rewrite Hs, Ht. reflexivity.
Qed.

(** C9.  An element whose kind is neither [path] nor one of [rect],
    [circle], [ellipse], [line], [polyline], whose style holds no
    transform and whose transform attribute takes the running context to
    [context'], raises no error: its [switch] leaves [paths] as it is, and
    the walker's result is that of visiting its children, in order, with
    [context'] and the unchanged [paths]. *)
Theorem C9_other_kinds_pass_through (precision : Z) (n : node)
    (context context' : TransformContext) (paths : list string) :
  unsupported_kind (nodeName n) = false ->
  nodeName n <> "path" ->
  style_ok n ->
  apply_transform (getAttrValue n "transform") context = Ok context' ->
  enter precision n context paths = Ok (context', paths)
  /\ extractPaths precision n context paths =
       forEach (fun c => extractPaths precision c context')
         (nullish (childNodes n) []) paths.
Proof.
  intros Hk Hp Hs Ht.
  assert (E : enter precision n context paths = Ok (context', paths)).
  { rewrite (enter_eq precision n context context' paths Hs Ht).
    unfold visit. rewrite Hk.
    apply String.eqb_neq in Hp. rewrite Hp. reflexivity. }
  split; [exact E|].
  rewrite extractPaths_eq, E. reflexivity.
Qed.

Lemma C9_other_kinds_pass_through_witness :
  extractPaths 5
    (element "g" [("transform", "translate(10,0) scale(2,1)")]
       [element "path" [("d", "M 0 0 L 1 1")] []])
    identity ["M 7 7"]
  = Ok ["M 7 7"; "M 10 0 L 12 1"].
Proof.
  refine (eq_trans (proj2 (@C9_other_kinds_pass_through 5
    (element "g" [("transform", "translate(10,0) scale(2,1)")]
       [element "path" [("d", "M 0 0 L 1 1")] []])
    identity
    {| translate := (of_Z 10, of_Z 0); scale := (of_Z 2, of_Z 1) |}
    ["M 7 7"] _ _ _ _)) _).
  - reflexivity.
  - discriminate.
  - reflexivity.
  - vm_compute. reflexivity.
  - vm_compute. reflexivity.
Defined.

(** C10.  A [path] element whose [d] attribute is absent or empty, whose
    style holds no transform and whose transform attribute takes the
    running context to [context'], raises no error and appends nothing:
    the walker's result is that of visiting its children, in order, with
    [context'] and the unchanged [paths]. *)
Theorem C10_path_without_data (precision : Z) (n : node)
    (context context' : TransformContext) (paths : list string) :
  nodeName n = "path" ->
  getAttrValue n "d" = None \/ getAttrValue n "d" = Some "" ->
  style_ok n ->
  apply_transform (getAttrValue n "transform") context = Ok context' ->
  enter precision n context paths = Ok (context', paths)
  /\ extractPaths precision n context paths =
       forEach (fun c => extractPaths precision c context')
         (nullish (childNodes n) []) paths.
Proof.
  intros Hp Hd Hs Ht.
  assert (E : enter precision n context paths = Ok (context', paths)).
  { rewrite (enter_eq precision n context context' paths Hs Ht).
    unfold visit. rewrite Hp. cbn [unsupported_kind].
    destruct Hd as [Hd | Hd]; rewrite Hd; reflexivity. }
  split; [exact E|].
  rewrite extractPaths_eq, E. reflexivity.
Qed.

Lemma C10_path_without_data_witness :
  extractPaths 5
    (element "path" [("d", ""); ("transform", "translate(1,2)")]
       [element "path" [("d", "M 0 0")] []])
    identity ["M 7 7"]
  = Ok ["M 7 7"; "M 1 2"].
Proof.
  refine (eq_trans (proj2 (@C10_path_without_data 5
    (element "path" [("d", ""); ("transform", "translate(1,2)")]
       [element "path" [("d", "M 0 0")] []])
    identity
    {| translate := (of_Z 1, of_Z 2); scale := (of_Z 1, of_Z 1) |}
    ["M 7 7"] _ _ _ _)) _).
  - reflexivity.
  - right. reflexivity.
  - reflexivity.
  - vm_compute. reflexivity.
  - vm_compute. reflexivity.
Defined.

(** *** The output document *)

Section Gather.
Variable below : node -> result (list string).

Fixpoint gather (cs : list node) : result (list string) :=
  match cs with
  | [] => Ok []
  | c :: cs' =>
      let* l := below c in
      let* r := gather cs' in
      Ok (l ++ r)%list
  end.
End Gather.

(** The normalized path strings of the subtree of [n] in pre-order: what
    [n] itself contributes, then what its children contribute, from left
    to right.  No accumulator is threaded; the first exception met in
    that order is the result. *)
Fixpoint paths_in_traversal_order (precision : Z) (n : node)
    (context : TransformContext) {struct n} : result (list string) :=
  match enter precision n context [] with
  | Throw e => Throw e
  | Ok (context', own) =>
      match childNodes n with
      | None => Ok own
      | Some cs =>
          let* l := gather (fun c => paths_in_traversal_order precision c context') cs in
          Ok (own ++ l)%list
      end
  end.

Lemma visit_acc precision n context paths :
  visit precision n context paths =
    let* own := visit precision n context [] in Ok (paths ++ own)%list.
Proof.
  unfold visit.
  destruct (unsupported_kind (nodeName n)); [reflexivity|].
  destruct (String.eqb (nodeName n) "path"); cbn [bind];
    [|rewrite app_nil_r; reflexivity].
  destruct (truthy (getAttrValue n "d")); cbn [bind];
    [|rewrite app_nil_r; reflexivity].
  destruct (normalizePathData _ _ _); reflexivity.
Qed.

Lemma enter_acc precision n context paths :
  enter precision n context paths =
    let* (context', own) := enter precision n context [] in
    Ok (context', (paths ++ own)%list).
Proof.
  unfold enter.
  destruct (match getAttrValue n "style" with
            | Some s => includes "transform" s | None => false end);
    [reflexivity|].
  destruct (apply_transform _ _) as [c'|e]; [|reflexivity]. cbn [bind].
  rewrite visit_acc.
  destruct (visit precision n c' []); reflexivity.
Qed.

Lemma forEach_gather (f : node -> list string -> result (list string))
    (g : node -> result (list string)) (cs : list node) :
  Forall (fun c => forall paths, f c paths = let* l := g c in Ok (paths ++ l)%list) cs ->
  forall paths,
    forEach f cs paths = let* l := gather g cs in Ok (paths ++ l)%list.
Proof.
  induction 1 as [|c cs Hc _ IH]; intros paths; cbn [forEach gather bind].
  - rewrite app_nil_r. reflexivity.
  - rewrite Hc. destruct (g c) as [l|e]; [|reflexivity]. cbn [bind].
    rewrite IH. destruct (gather g cs) as [r|e]; [|reflexivity]. cbn [bind].
    rewrite app_assoc. reflexivity.
Qed.

(** The walker appends to [paths] exactly the pre-order list. *)
Lemma extractPaths_traversal_order precision n :
  forall context paths,
    extractPaths precision n context paths =
      let* l := paths_in_traversal_order precision n context in
      Ok (paths ++ l)%list.
Proof.
  induction n as [nm a cs IH] using node_ind. intros context paths.
  cbn [extractPaths paths_in_traversal_order].
  rewrite enter_acc.
  destruct (enter precision (Node nm a cs) context []) as [[c' own]|e];
    [|reflexivity].
  cbn [bind childNodes]. destruct cs as [l|]; [|reflexivity].
  rewrite (forEach_gather _ (fun c => paths_in_traversal_order precision c c')).
  - destruct (gather _ l) as [r|e]; [|reflexivity]. cbn [bind].
    rewrite app_assoc. reflexivity.
  - specialize (IH l eq_refl). revert IH. apply Forall_impl.
    intros c Hc ps. apply Hc.
Qed.



(** *** Transform composition *)

(** The matches the [for] loop of [extractPaths] sees in a transform
    string, in order: [tfrx.exec] until it returns [null]. *)
Inductive Tokens : string -> list (string * string) -> Prop :=
| Tokens_done s :
    exec tfrx s = None -> Tokens s []
| Tokens_next s nm args rest l :
    exec tfrx s = Some ((nm, args), rest) ->
    Tokens rest l ->
    Tokens s ((nm, args) :: l).

Lemma Tokens_exist s : exists toks, Tokens s toks.
Proof.
  remember (String.length s) as n eqn:Hn.
  assert (Hle : (String.length s <= n)%nat) by lia. clear Hn.
  revert s Hle. induction n as [|n IH]; intros s Hle.
  - destruct (exec tfrx s) as [[[nm args] rest]|] eqn:E.
    + apply (exec_shrinking tfrx tfrx_shrinking) in E. lia.
    + exists []. constructor. exact E.
  - destruct (exec tfrx s) as [[[nm args] rest]|] eqn:E.
    + pose proof (exec_shrinking tfrx tfrx_shrinking _ _ _ E) as Hlt.
      destruct (IH rest ltac:(lia)) as [l Hl].
      exists ((nm, args) :: l). econstructor; eassumption.
    + exists []. constructor. exact E.
Qed.

Lemma Tokens_functional s l1 :
  Tokens s l1 -> forall l2, Tokens s l2 -> l1 = l2.
Proof.
  induction 1 as [s E | s nm args rest l E _ IH]; intros l2 H2;
    destruct H2 as [s E2 | s nm2 args2 rest2 l2 E2 H2]; try congruence.
  rewrite E in E2. injection E2 as <- <- <-.
  rewrite (IH l2 H2). reflexivity.
Qed.

(** The [for] loop does not depend on its fuel once it covers the string. *)
Lemma transform_loop_enough f1 :
  forall f2 s c,
    (String.length s <= f1)%nat -> (String.length s <= f2)%nat ->
    transform_loop f1 s c = transform_loop f2 s c.
Proof.
  induction f1 as [|f1 IH]; intros f2 s c H1 H2.
  - destruct s; [|cbn in H1; lia]. destruct f2; reflexivity.
  - destruct f2 as [|f2].
    + destruct s; [|cbn in H2; lia]. reflexivity.
    + cbn [transform_loop].
      destruct (exec tfrx s) as [[[nm args] rest]|] eqn:E; [|reflexivity].
      apply (exec_shrinking tfrx tfrx_shrinking) in E.
      destruct (transform_token nm args c) as [c'|e]; [|reflexivity].
      cbn [bind]. apply IH; lia.
Qed.

(** The composition rule in the words of the specification: a command is
    [translate(dx, dy)] or [scale(sx, sy)], and each one updates the
    running context [(t, s)]. *)
Inductive command : Type :=
| Translate (dx dy : number)
| Scale (sx sy : number).

Definition compose (c : TransformContext) (cmd : command) : TransformContext :=
let '(tx, ty) := translate c in
let '(sx, sy) := scale c in
match cmd with
| Translate dx dy =>
    {| translate := (add (mul sx dx) tx, add (mul sy dy) ty); scale := (sx, sy) |}
| Scale kx ky =>
    {| translate := (tx, ty); scale := (mul sx kx, mul sy ky) |}
end.

(** A token with exactly two comma-separated arguments and the name
    [translate] or [scale], as a command. *)
Definition token_command (tok : string * string) : option command :=
match split "," (snd tok) with
| [a; b] =>
    if String.eqb (fst tok) "translate"
    then Some (Translate (parseFloat (trim a)) (parseFloat (trim b)))
    else if String.eqb (fst tok) "scale"
    then Some (Scale (parseFloat (trim a)) (parseFloat (trim b)))
    else None
| _ => None
end.

Lemma transform_token_compose nm args cmd c :
token_command (nm, args) = Some cmd ->
transform_token nm args c = Ok (compose c cmd).
Proof.
unfold token_command, transform_token, compose. cbn [fst snd].
destruct c as [[tx ty] [sx sy]]. cbn [translate scale fst snd].
destruct (split "," args) as [|a [|b [|x l]]]; try discriminate.
destruct (String.eqb nm "translate").
- intros E. injection E as <-. reflexivity.
- destruct (String.eqb nm "scale"); [|discriminate].
  intros E. injection E as <-. reflexivity.
Qed.

Lemma transform_loop_tokens s toks :
Tokens s toks ->
forall cmds, map token_command toks = map Some cmds ->
forall fuel c, (String.length s <= fuel)%nat ->
  transform_loop fuel s c = Ok (fold_left compose cmds c).
Proof.
induction 1 as [s E | s nm args rest l E _ IH]; intros cmds Hc fuel c Hf.
- destruct cmds; [|discriminate Hc].
  destruct fuel; cbn; [reflexivity|]. rewrite E. reflexivity.
- destruct cmds as [|cmd cmds]; [discriminate Hc|].
  cbn [map] in Hc. injection Hc as Hcmd Hrest.
  pose proof (exec_shrinking tfrx tfrx_shrinking _ _ _ E) as Hlt.
  destruct fuel as [|fuel]; [lia|].
  cbn [transform_loop]. rewrite E.
  rewrite (transform_token_compose nm args cmd c Hcmd). cbn [bind fold_left].
  apply IH; [exact Hrest | lia].
Qed.

(** C2.  When the matches of [tfrx] in a transform attribute are
    [translate] and [scale] tokens with two arguments each, the walker's
    context after the attribute is the left fold of [compose] over them,
    starting from the context it had before: [translate(dx, dy)] met with
    [(t, s)] gives the translation [(s.x*dx + t.x, s.y*dy + t.y)] with the
    scale of that moment, [scale(kx, ky)] gives the scale
    [(s.x*kx, s.y*ky)].  A node without transform attribute keeps the
    context.  For a parent [translate(10,0) scale(2,1)] and a child
    [translate(5,0)] the child's translation is [(20, 0)], that is
    [2*5 + 10], and the child's point [(0, 0)] is written [20 0]. *)
Theorem C2_transform_composition :
(forall (s : string) (toks : list (string * string)) (cmds : list command)
        (c : TransformContext),
    Tokens s toks ->
    map token_command toks = map Some cmds ->
    apply_transform (Some s) c = Ok (fold_left compose cmds c))
/\ (forall c, apply_transform None c = Ok c)
/\ (forall t s dx dy,
      compose {| translate := t; scale := s |} (Translate dx dy)
      = {| translate := (add (mul (fst s) dx) (fst t), add (mul (snd s) dy) (snd t));
           scale := s |})
/\ (forall t s kx ky,
      compose {| translate := t; scale := s |} (Scale kx ky)
      = {| translate := t; scale := (mul (fst s) kx, mul (snd s) ky) |})
/\ apply_transform (Some "translate(10,0) scale(2,1)") identity
     = Ok {| translate := (of_Z 10, of_Z 0); scale := (of_Z 2, of_Z 1) |}
/\ apply_transform (Some "translate(5,0)")
       {| translate := (of_Z 10, of_Z 0); scale := (of_Z 2, of_Z 1) |}
     = Ok {| translate := (of_Z 20, of_Z 0); scale := (of_Z 2, of_Z 1) |}
/\ extractPaths 5
       (element "g" [("transform", "translate(10,0) scale(2,1)")]
          [element "path" [("transform", "translate(5,0)"); ("d", "M 0 0 L 1 1")] []])
       identity []
     = Ok ["M 20 0 L 22 1"].
Proof.
split; [|split; [|split; [|split; [|split; [|split]]]]].
- intros s toks cmds c Ht Hc. unfold apply_transform. cbn [nullish].
  apply (transform_loop_tokens s toks Ht cmds Hc). lia.
- intros c. vm_compute. reflexivity.
- intros [tx ty] [sx sy] dx dy. reflexivity.
- intros [tx ty] [sx sy] kx ky. reflexivity.
- vm_compute. reflexivity.
- vm_compute. reflexivity.
- vm_compute. reflexivity.
Qed.

Lemma C2_transform_composition_witness :
apply_transform (Some "translate(10,0) scale(2,1)") identity
= Ok (fold_left compose [Translate (of_Z 10) (of_Z 0); Scale (of_Z 2) (of_Z 1)] identity).
Proof.
apply (proj1 C2_transform_composition "translate(10,0) scale(2,1)"
         [("translate", "10,0"); ("scale", "2,1")]).
- apply Tokens_next with (rest := " scale(2,1)"); [reflexivity|].
  apply Tokens_next with (rest := ""); [reflexivity|].
  apply Tokens_done. reflexivity.
- vm_compute. reflexivity.
Defined.

(** *** Arc commands *)

(** No character of [s] is [sep]. *)
Fixpoint free_of (sep : ascii) (s : string) : bool :=
  match s with
  | EmptyString => true
  | String c s' => (negb (Ascii.eqb c sep) && free_of sep s')%bool
  end.

Lemma split_free sep s : free_of sep s = true -> split sep s = [s].
Proof.
  induction s as [|c s IH]; cbn; [reflexivity|].
  destruct (Ascii.eqb c sep); cbn; [discriminate|].
  intros H. rewrite (IH H). reflexivity.
Qed.

Lemma split_append_sep sep a b :
  free_of sep a = true -> split sep (a ++ String sep b) = a :: split sep b.
Proof.
  induction a as [|c a IH]; cbn.
  - rewrite Ascii.eqb_refl. reflexivity.
  - destruct (Ascii.eqb c sep); cbn; [discriminate|].
    intros H. rewrite (IH H). reflexivity.
Qed.

(** [split] undoes [join] on strings without the separator. *)
Lemma split_join sep x l :
  forallb (free_of sep) (x :: l) = true ->
  split sep (join (str sep) (x :: l)) = x :: l.
Proof.
  revert x. induction l as [|y l IH]; intros x H.
  - cbn in H. rewrite andb_true_r in H. apply split_free. exact H.
  - cbn [forallb] in H. apply andb_true_iff in H. destruct H as [Hx Hl].
    change (join (str sep) (x :: y :: l))
      with (x ++ String sep (join (str sep) (y :: l))).
    rewrite (split_append_sep sep x _ Hx), (IH y Hl). reflexivity.
Qed.

Lemma arr_join_strings (l : list string) :
  map (fun v => match v with VUndefined => "" | _ => to_string v end)
      (map VString l) = l.
Proof.
  induction l as [|x l IH]; cbn; [reflexivity | rewrite IH; reflexivity].
Qed.



(** *** Curve commands *)

Fixpoint all (p : ascii -> bool) (s : string) : bool :=
  match s with
  | EmptyString => true
  | String c s' => (p c && all p s')%bool
  end.

(** The string begins with a character that is not a letter. *)
Definition value_head (s : string) : bool :=
  match s with
  | String c _ => not_letter c
  | EmptyString => false
  end.


Lemma span_all p s a b : span p s = (a, b) -> all p a = true.
Proof.
  revert a b. induction s as [|c s IH]; cbn; intros a b E.
  - injection E as <- <-. reflexivity.
  - destruct (p c) eqn:Ep.
    + destruct (span p s) as [a' b']. injection E as <- <-.
      cbn. rewrite Ep, (IH a' b' eq_refl). reflexivity.
    + injection E as <- <-. reflexivity.
Qed.

Lemma locate p ch run :
  all p run = true -> p ch = false ->
  forall pre x y, run ++ x = pre ++ String ch y ->
  exists pre', x = pre' ++ String ch y.
Proof.
  intros Hall Hch. induction run as [|r run IH]; intros pre x y E.
  - exists pre. exact E.
  - cbn in Hall. apply andb_true_iff in Hall. destruct Hall as [Hr Hall].
    destruct pre as [|a pre]; cbn in E; injection E as E1 E2.
    + subst r. congruence.
    + exact (IH Hall pre x y E2).
Qed.






(** What a match of each regular expression of the tokenizer covers. *)
Lemma rx_value_command_inv s run l rest :
  rx_value_command s = Some ((run, l), rest) ->
  s = run ++ String l rest /\ all not_letter run = true /\ value_head run = true.
Proof.
  unfold rx_value_command.
  destruct (span not_letter s) as [a b] eqn:E.
  destruct a as [|c a]; [discriminate|]. destruct b as [|l' b]; [discriminate|].
  intros H. injection H as <- <- <-.
  pose proof (span_all _ _ _ _ E) as Hall.
  split; [exact (span_append _ _ _ _ E)|]. split; [exact Hall|].
  cbn in Hall. apply andb_true_iff in Hall. exact (proj1 Hall).
Qed.

Lemma rx_spaces_inv s m rest :
  rx_spaces s = Some (m, rest) ->
  s = m ++ rest /\ all is_space m = true.
Proof.
  unfold rx_spaces. destruct s as [|c r]; [discriminate|].
  destruct (is_space c) eqn:Ec; [|discriminate].
  destruct (span is_space r) as [a b] eqn:E.
  destruct a as [|c' a]; [discriminate|].
  intros H. injection H as <- <-.
  pose proof (span_all _ _ _ _ E) as Hall.
  split.
  - cbn. rewrite (span_append _ _ _ _ E). reflexivity.
  - cbn [all]. rewrite Ec. exact Hall.
Qed.

Lemma rx_command_inv s m rest :
  rx_command s = Some (m, rest) ->
  exists l run, s = String l (run ++ rest) /\ m = String l run
                /\ all not_letter run = true.
Proof.
  unfold rx_command. destruct s as [|l r]; [discriminate|].
  destruct (is_letter l); [|discriminate].
  destruct (span not_letter r) as [a b] eqn:E.
  destruct a as [|c a]; [discriminate|].
  intros H. injection H as <- <-.
  exists l, (String c a). split; [|split].
  - rewrite (span_append _ _ _ _ E). reflexivity.
  - reflexivity.
  - exact (span_all _ _ _ _ E).
Qed.

Lemma rx_command_shrinking : shrinking rx_command.
Proof.
  intros s m rest H. apply rx_command_inv in H.
  destruct H as [l [run [-> _]]]. cbn. rewrite length_append. lia.
Qed.






Lemma split_head sep c s :
  Ascii.eqb c sep = false ->
  exists p ps, split sep (String c s) = String c p :: ps.
Proof.
  intros H. cbn. rewrite H. unfold str.
  destruct (split sep s) as [|p ps]; eauto.
Qed.


Lemma transform_command_throws c i cmd e :
  transform_command c i cmd = Throw e -> exists v, e = unsupported_command v.
Proof.
  unfold transform_command.
  destruct (translate c) as [tx ty]. destruct (scale c) as [sx sy].
  destruct (_ || _)%bool; [discriminate|].
  destruct (is_string _ "A"); [discriminate|].
  intros H. injection H as <-. eauto.
Qed.



(** *** Unsupported transforms *)

(** The errors the transform loop throws. *)
Definition transform_error (e : exn) : Prop :=
  (exists args, e = invalid_parameters args)
  \/ (exists nm, e = unsupported_transform nm).

Lemma transform_token_throws nm args c e :
  transform_token nm args c = Throw e -> transform_error e.
Proof.
  unfold transform_token, transform_error.
  destruct (String.eqb nm "translate").
  - destruct (split "," args) as [|a [|b [|x l]]]; try discriminate;
      intros H; injection H as <-; eauto.
  - destruct (String.eqb nm "scale").
    + destruct (split "," args) as [|a [|b [|x l]]]; try discriminate;
        intros H; injection H as <-; eauto.
    + intros H; injection H as <-; eauto.
Qed.


(** *** Faults under the drawing root *)

(** [m] is [n] or a descendant of [n]. *)
Inductive In_subtree (m : node) : node -> Prop :=
| In_subtree_here : In_subtree m m
| In_subtree_below c n cs :
    childNodes n = Some cs -> In c cs -> In_subtree m c -> In_subtree m n.

(** [m] is a node of the tree [n], at any depth. *)
Fixpoint occurs (p : node -> bool) (n : node) {struct n} : bool :=
  (p n ||
   match childNodes n with
   | Some cs => existsb (occurs p) cs
   | None => false
   end)%bool.










End Properties.

(* ================================================================== *)
(** ** The command line *)

(** The script that wraps [sketchToIcon]: its [async] body, the [catch]
    handler and what they do to the outside.  The arguments are taken as
    [yargs-parser] returns them; [resolve], [readFile], [writeFile] and
    [parseFragment] are the environment. *)
Module Cli.
Import JsString JsNumber Icon.

(** The object [parseArgs] returns, as far as the script reads it. *)
Record arguments : Type :=
  { input : option string;
    output : option string;
    exportedPaddingFactor : option number;
    fill : option string;
    fillRule : option string;
    precision : option Z }.

(** What the script throws or awaits a rejection with: its own
    [UsageError], or anything else. *)
Inductive thrown : Type :=
| UsageError (message : string)
| Other (e : exn).

(** What the script does to the outside, in order. *)
Inductive event : Type :=
| ReadFile (filename : string)
| WriteFile (filename content : string)
| ConsoleError (text : string)
| ConsoleErrorObject (e : exn)
| Exit (code : Z).

Definition tab : ascii := ascii_of_N 9.

(** [.replace(/\t/g, "  ")]. *)
Fixpoint replace_tabs (s : string) : string :=
  match s with
  | EmptyString => EmptyString
  | String c s' =>
      if Ascii.eqb c tab then String " " (String " " (replace_tabs s'))
      else String c (replace_tabs s')
  end.

Definition usage_template : string :=
  "
Usage: freecad-sketch-to-icon [...args]

	--input <path> | -i <path>
		The svg file that was exported from FreeCAD as a " ++ str quote ++ "Flattened SVG" ++ str quote ++ ".
		This argument is required.

	--output <path> | -o <path>
		The path to store the normalized and optimized svg icon.
		This argument is required.

	--exported-padding-factor <factor>
		The padding factor that was used by FreeCAD.
		Default is 0.01

	--fill <color>
		The fill color to use.
		Default is " ++ str quote ++ "currentColor" ++ str quote ++ ".

	--fill-rule <rule>
		The fill rule to use.
		Default is " ++ str quote ++ "evenodd" ++ str quote ++ ".

	--precision <digits>
		The maximum number of floating point digits to use.
		Default is 5.
".

Definition usage : string := replace_tabs usage_template.

Section Environment.
Variable parseFragment : string -> node.
Variable resolve : string -> string.
Variable readFile : string -> result string.
Variable writeFile : string -> string -> result unit.

(** The body of the [async] function: the events it caused and, when it
    threw or an awaited promise was rejected, what with. *)
Definition body (args : arguments) : list event * option thrown :=
  if negb (truthy (input args)) then
    ([], Some (UsageError "--input or -i is required"))
  else
    let inputFilename := resolve (nullish (input args) "") in
    if negb (truthy (output args)) then
      ([], Some (UsageError "--output or -o is required"))
    else
      let outputFilename := resolve (nullish (output args) "") in
      match readFile inputFilename with
      | Throw e => ([ReadFile inputFilename], Some (Other e))
      | Ok text =>
          match sketchToIcon parseFragment
                  {| Icon.input := text;
                     Icon.exportedPaddingFactor := exportedPaddingFactor args;
                     Icon.fill := fill args;
                     Icon.fillRule := fillRule args;
                     Icon.precision := precision args |} with
          | Throw e => ([ReadFile inputFilename], Some (Other e))
          | Ok out =>
              match writeFile outputFilename out with
              | Throw e =>
                  ([ReadFile inputFilename; WriteFile outputFilename out],
                   Some (Other e))
              | Ok _ =>
                  ([ReadFile inputFilename; WriteFile outputFilename out], None)
              end
          end
      end.

(** The [catch] handler. *)
Definition handler (t : thrown) : list event :=
  match t with
  | UsageError message => [ConsoleError message; ConsoleError usage; Exit 2]
  | Other e => [ConsoleErrorObject e; Exit 1]
  end.

(** The whole script. *)
Definition main (args : arguments) : list event :=
  let '(events, t) := body args in
  match t with
  | Some t => (events ++ handler t)%list
  | None => events
  end.

End Environment.

End Cli.

(* ================================================================== *)
(** ** Further properties of the converter and of the command line *)

Module Extras.
Import JsString JsNumber Regex Icon Samples Properties.

#[local] Unset Implicit Arguments.

(** *** The drawing root *)

Definition is_svg (n : node) : bool := String.eqb (nodeName n) "svg".

Lemma findRoot_eq nm a cs :
  findRoot (Node nm a cs) =
    if String.eqb nm "svg" then Some (Node nm a cs)
    else match cs with
         | Some l =>
             (fix first (l : list node) : option node :=
                match l with
                | [] => None
                | c :: l' =>
                    match findRoot c with
                    | Some r => Some r
                    | None => first l'
                    end
                end) l
         | None => None
         end.
Proof. reflexivity. Qed.

Lemma findRoot_sound n :
  forall r, findRoot n = Some r -> nodeName r = "svg" /\ In_subtree r n.
Proof.
  induction n as [nm a cs IH] using node_ind. intros r.
  rewrite findRoot_eq. destruct (String.eqb_spec nm "svg") as [E|_].
  - intros H. injection H as <-. split; [exact E | constructor].
  - destruct cs as [l|]; [|discriminate].
    specialize (IH l eq_refl).
    assert (G : forall l', incl l' l ->
      (fix first (l : list node) : option node :=
         match l with
         | [] => None
         | c :: l' =>
             match findRoot c with
             | Some r => Some r
             | None => first l'
             end
         end) l' = Some r ->
      nodeName r = "svg" /\ In_subtree r (Node nm a (Some l))).
    { induction l' as [|c l' IHl]; intros Hincl; [discriminate|].
      destruct (findRoot c) as [r'|] eqn:Ec.
      - intros H. injection H as ->.
        assert (Hc : In c l) by (apply Hincl; left; reflexivity).
        rewrite Forall_forall in IH.
        destruct (IH c Hc r Ec) as [Hn Hs]. split; [exact Hn|].
        exact (In_subtree_below r c (Node nm a (Some l)) l eq_refl Hc Hs).
      - apply IHl. intros x Hx. apply Hincl. right. exact Hx. }
    apply G. apply incl_refl.
Qed.

Lemma findRoot_none n : findRoot n = None <-> occurs is_svg n = false.
Proof.
  induction n as [nm a cs IH] using node_ind.
  rewrite findRoot_eq. cbn [occurs childNodes]. unfold is_svg at 1. cbn [nodeName].
  destruct (String.eqb nm "svg"); cbn [orb]; [split; discriminate|].
  destruct cs as [l|]; [|split; reflexivity].
  specialize (IH l eq_refl).
  induction l as [|c l IHl]; [split; reflexivity|].
  inversion IH as [|c' l' Hc Hl]; subst. cbn [existsb].
  destruct (findRoot c) as [r|] eqn:Ec.
  - split; [discriminate|]. intros H. apply orb_false_iff in H.
    destruct H as [H _]. apply Hc in H. discriminate H.
  - rewrite (proj1 Hc eq_refl). cbn [orb]. exact (IHl Hl).
Qed.

(** X1.  [findRoot] returns nothing exactly when no node of the tree is
    named [svg]; what it returns is a node of the tree named [svg]; and a
    tree whose top node is named [svg] is its own root, whatever it
    holds. *)
Theorem findRoot_finds_svg (tree : node) :
  (findRoot tree = None <-> occurs is_svg tree = false)
  /\ (forall r, findRoot tree = Some r -> nodeName r = "svg" /\ In_subtree r tree)
  /\ (nodeName tree = "svg" -> findRoot tree = Some tree).
Proof.
  split; [exact (findRoot_none tree)|]. split; [exact (findRoot_sound tree)|].
  destruct tree as [nm a cs]. cbn [nodeName]. intros ->. reflexivity.
Qed.

(** *** The exceptions of a conversion *)

(** The exceptions the walker can end with, for the precision it runs
    with: five [Error]s of the source, and the [RangeError] of [toFixed],
    which needs a precision outside [0..100]. *)
Inductive walker_error (precision : Z) : exn -> Prop :=
| we_style_transform : walker_error precision style_transform
| we_invalid_parameters args :
    walker_error precision (invalid_parameters args)
| we_unsupported_transform nm :
    walker_error precision (unsupported_transform nm)
| we_unsupported_element nm :
    unsupported_kind nm = true ->
    walker_error precision (unsupported_element nm)
| we_unsupported_command v :
    walker_error precision (unsupported_command v)
| we_range message :
    precision < 0 \/ 100 < precision ->
    walker_error precision (RangeError message).


Lemma replace_from_throws {M : Type} (matcher : string -> option (M * string))
    (replacer : M -> result string) (P : exn -> Prop) :
  (forall m e, replacer m = Throw e -> P e) ->
  forall fuel s e, replace_from matcher replacer fuel s = Throw e -> P e.
Proof.
  intros H. induction fuel as [|fuel IH]; intros s e; cbn [replace_from];
    [discriminate|].
  destruct (matcher s) as [[m rest]|].
  - destruct (replacer m) as [r|e'] eqn:Er; cbn [bind].
    + destruct (replace_from matcher replacer fuel rest) as [t|e''] eqn:Et;
        cbn [bind]; [discriminate|].
      intros E. injection E as <-. exact (IH rest e'' Et).
    + intros E. injection E as <-. exact (H m e' Er).
  - destruct s as [|c s']; [discriminate|].
    destruct (replace_from matcher replacer fuel s') as [t|e''] eqn:Et;
      cbn [bind]; [discriminate|].
    intros E. injection E as <-. exact (IH s' e'' Et).
Qed.

Lemma toFixed_throws x p e :
  toFixed x p = Throw e ->
  (p < 0 \/ 100 < p) /\ exists message, e = RangeError message.
Proof.
  unfold toFixed.
  destruct ((p <? 0) || (100 <? p))%bool eqn:Ep.
  - intros E. injection E as <-. split; [|eexists; reflexivity].
    apply orb_true_iff in Ep. destruct Ep as [Ep | Ep]; apply Z.ltb_lt in Ep; lia.
  - destruct x as [s| | |s m ex]; try discriminate.
    destruct (10 ^ 21 <=? _); [discriminate|].
    destruct (scale10 _ _). discriminate.
Qed.

Lemma limit_precision_throws p x e :
  limit_precision p x = Throw e -> walker_error p e.
Proof.
  unfold limit_precision.
  destruct (toFixed (Number_of_string x) p) as [r|e'] eqn:E; cbn [bind];
    [discriminate|].
  intros H. injection H as <-. apply toFixed_throws in E.
  destruct E as [Hp [message ->]]. constructor. exact Hp.
Qed.

Lemma normalizePathData_throws data c p e :
  normalizePathData data c p = Throw e -> walker_error p e.
Proof.
  unfold normalizePathData, replace.
  destruct (replace_from rx_value_command space_between _ data) as [s1|e1] eqn:E1;
    cbn [bind].
  2:{ intros H. injection H as <-. revert E1.
      apply (replace_from_throws rx_value_command space_between).
      intros m e1'. discriminate. }
  destruct (replace_from rx_spaces single_space _ s1) as [s2|e2] eqn:E2;
    cbn [bind].
  2:{ intros H. injection H as <-. revert E2.
      apply (replace_from_throws rx_spaces single_space).
      intros m e2'. discriminate. }
  destruct (replace_from rx_command _ _ s2) as [s3|e3] eqn:E3; cbn [bind].
  2:{ intros H. injection H as <-. revert E3.
      apply (replace_from_throws rx_command).
      intros m e3' Hm. apply transform_command_throws in Hm.
      destruct Hm as [v ->]. constructor. }
  apply (replace_from_throws rx_decimal).
  intros m e4. apply limit_precision_throws.
Qed.

Lemma transform_loop_throws fuel :
  forall s c e, transform_loop fuel s c = Throw e -> transform_error e.
Proof.
  induction fuel as [|fuel IH]; intros s c e; cbn [transform_loop];
    [discriminate|].
  destruct (exec tfrx s) as [[[nm args] rest]|]; [|discriminate].
  destruct (transform_token nm args c) as [c'|e'] eqn:Et; cbn [bind].
  - apply IH.
  - intros H. injection H as <-. exact (transform_token_throws _ _ _ _ Et).
Qed.

Lemma enter_throws p n c paths e :
  enter p n c paths = Throw e -> walker_error p e.
Proof.
  unfold enter.
  destruct (match getAttrValue n "style" with
            | Some s => includes "transform" s | None => false end).
  - intros H. injection H as <-. constructor.
  - destruct (apply_transform _ c) as [c'|e'] eqn:Et; cbn [bind].
    + unfold visit. destruct (unsupported_kind (nodeName n)) eqn:Ek.
      * cbn [bind]. intros H. injection H as <-. constructor. exact Ek.
      * destruct (String.eqb (nodeName n) "path"); [|discriminate].
        destruct (truthy (getAttrValue n "d")); [|discriminate].
        destruct (normalizePathData _ c' p) as [d|e'] eqn:En; cbn [bind];
          [discriminate|].
        intros H. injection H as <-. exact (normalizePathData_throws _ _ _ _ En).
    + intros H. injection H as <-.
      apply transform_loop_throws in Et.
      destruct Et as [[args ->] | [nm ->]]; constructor.
Qed.

Lemma forEach_throws_some (f : node -> list string -> result (list string))
    (P : exn -> Prop) cs :
  Forall (fun c => forall paths e, f c paths = Throw e -> P e) cs ->
  forall paths e, forEach f cs paths = Throw e -> P e.
Proof.
  induction 1 as [|c cs Hc _ IH]; intros paths e; cbn [forEach]; [discriminate|].
  destruct (f c paths) as [paths'|e'] eqn:Ec; cbn [bind].
  - apply IH.
  - intros H. injection H as <-. exact (Hc paths e' Ec).
Qed.

Lemma extractPaths_throws p n :
  forall c paths e, extractPaths p n c paths = Throw e -> walker_error p e.
Proof.
  induction n as [nm a cs IH] using node_ind. intros c paths e.
  rewrite extractPaths_eq.
  destruct (enter p (Node nm a cs) c paths) as [[c' paths']|e'] eqn:Ee; cbn [bind].
  - cbn [childNodes]. destruct cs as [l|]; cbn [nullish forEach]; [|discriminate].
    apply forEach_throws_some. specialize (IH l eq_refl).
    revert IH. apply Forall_impl. intros x Hx ps e0. apply Hx.
  - intros H. injection H as <-. exact (enter_throws _ _ _ _ _ Ee).
Qed.

Lemma viewport_throws root f e :
  viewport root f = Throw e -> e = missing_viewBox \/ e = invalid_viewBox.
Proof.
  unfold viewport. destruct (negb (truthy (getAttrValue root "viewBox"))).
  - intros H. injection H as <-. left. reflexivity.
  - destruct (existsb isNaN _); [|discriminate].
    intros H. injection H as <-. right. reflexivity.
Qed.



Lemma walker_error_not_root p : ~ walker_error p missing_root.
Proof.
  intros H. remember missing_root as e eqn:He.
  destruct H;
    unfold missing_root, style_transform, invalid_parameters,
      unsupported_transform, unsupported_element, unsupported_command in He;
    cbn [String.append] in He; discriminate He.
Qed.

(** X3.  The conversion throws the missing-root error exactly when no
    node of the tree is named [svg]. *)
Theorem missing_root_iff (tree : node) (o : options) :
  sketchToIconTree tree o = Throw missing_root <-> occurs is_svg tree = false.
Proof.
  rewrite <- findRoot_none. split.
  - intros H. destruct (findRoot tree) as [root|] eqn:Er; [|reflexivity].
    exfalso. revert H. unfold sketchToIconTree. rewrite Er.
    destruct (viewport root _) as [[[[x y] w] h]|e'] eqn:Ev; cbn [bind].
    + destruct (extractPaths _ root _ _) as [paths|e'] eqn:Ep; cbn [bind];
        [discriminate|].
      intros H. injection H as ->. apply extractPaths_throws in Ep.
      exact (walker_error_not_root _ Ep).
    + intros H. injection H as ->. apply viewport_throws in Ev.
      destruct Ev as [Ev | Ev]; discriminate Ev.
  - intros Er. unfold sketchToIconTree. rewrite Er. reflexivity.
Qed.

(** *** Style attributes *)

Lemma starts_with_spec p : forall s,
  starts_with p s = true <-> exists post, s = p ++ post.
Proof.
  induction p as [|a p IH]; intros s; cbn.
  - split; [intros _; exists s; reflexivity | reflexivity].
  - destruct s as [|b s]; [split; [discriminate | intros [post E]; discriminate E]|].
    rewrite andb_true_iff, IH. split.
    + intros [Hab [post ->]]. apply Ascii.eqb_eq in Hab. subst b.
      exists post. reflexivity.
    + intros [post E]. injection E as -> ->. split.
      * apply Ascii.eqb_refl.
      * exists post. reflexivity.
Qed.

Lemma includes_spec needle : forall s,
  includes needle s = true <-> exists pre post, s = pre ++ needle ++ post.
Proof.
  induction s as [|c s IH].
  - cbn [includes]. rewrite orb_false_r, starts_with_spec. split.
    + intros [post E]. exists "", post. exact E.
    + intros [[|a pre] [post E]]; [exists post; exact E | discriminate E].
  - cbn [includes]. rewrite orb_true_iff, starts_with_spec, IH. split.
    + intros [[post E] | [pre [post E]]].
      * exists "", post. exact E.
      * exists (String c pre), post. rewrite E. reflexivity.
    + intros [[|a pre] [post E]].
      * left. exists post. exact E.
      * right. cbn in E. injection E as _ E. exists pre, post. exact E.
Qed.

(** X4.  A node whose [style] attribute holds the text [transform]
    anywhere (so also [text-transform] or [transform-origin]) makes the
    walker throw the style-transform error, whatever the node's kind, its
    transform attribute, its children and the paths collected so far. *)
Theorem style_with_transform_throws (precision : Z) (n : node)
    (c : TransformContext) (paths : list string) (pre post : string) :
  getAttrValue n "style" = Some (pre ++ "transform" ++ post) ->
  extractPaths precision n c paths = Throw style_transform.
Proof.
  intros H. rewrite extractPaths_eq. unfold enter. rewrite H.
  rewrite (proj2 (includes_spec "transform" _)); [reflexivity|].
  exists pre, post. reflexivity.
Qed.

Lemma style_with_transform_throws_witness :
  extractPaths 5
    (element "rect" [("style", "text-transform: none"); ("transform", "rotate(1)")] [])
    identity []
  = Throw style_transform.
Proof.
  apply (style_with_transform_throws 5 _ identity [] "text-" ": none").
  reflexivity.
Defined.

(** *** Transform attributes *)

Lemma transform_token_rejects nm args c :
  (nm <> "translate" /\ nm <> "scale") \/ List.length (split "," args) <> 2%nat ->
  exists e, transform_token nm args c = Throw e.
Proof.
  intros H. unfold transform_token.
  destruct (String.eqb_spec nm "translate") as [E1|N1].
  - destruct H as [[H _] | H]; [contradiction|].
    destruct (split "," args) as [|a [|b [|x l]]];
      try (eexists; reflexivity). cbn in H. contradiction.
  - destruct (String.eqb_spec nm "scale") as [E2|N2].
    + destruct H as [[_ H] | H]; [contradiction|].
      destruct (split "," args) as [|a [|b [|x l]]];
        try (eexists; reflexivity). cbn in H. contradiction.
    + eexists; reflexivity.
Qed.

Lemma transform_loop_rejects s toks :
  Tokens s toks ->
  forall nm args, In (nm, args) toks ->
  (nm <> "translate" /\ nm <> "scale") \/ List.length (split "," args) <> 2%nat ->
  forall fuel c, (String.length s <= fuel)%nat ->
  exists e, transform_loop fuel s c = Throw e /\ transform_error e.
Proof.
  induction 1 as [s E | s nm0 a rest l E _ IH]; intros nm args Hin Hbad fuel c Hf.
  - destruct Hin.
  - pose proof (exec_shrinking tfrx tfrx_shrinking _ _ _ E) as Hlt.
    destruct fuel as [|fuel]; [lia|].
    cbn [transform_loop]. rewrite E.
    destruct (transform_token nm0 a c) as [c'|e] eqn:Et.
    + cbn [bind]. destruct Hin as [Heq | Hin].
      * injection Heq as -> ->.
        destruct (transform_token_rejects nm args c Hbad) as [e Ee]. congruence.
      * apply (IH nm args Hin Hbad). lia.
    + cbn [bind]. exists e. split; [reflexivity|].
      exact (transform_token_throws _ _ _ _ Et).
Qed.

(** X5.  A transform attribute in which [tfrx] matches a token whose name
    is neither [translate] nor [scale] (rotate, matrix, skewX, ...), or a
    [translate] or [scale] token whose argument text does not split into
    exactly two parts at commas, makes the transform loop throw one of the
    two transform errors, from whatever context.  A [scale] token with the
    wrong number of arguments is reported, like a [translate] token, as
    [invalid translate parameters]. *)
Theorem malformed_transform_throws :
  (forall s toks nm args c,
      Tokens s toks -> In (nm, args) toks ->
      (nm <> "translate" /\ nm <> "scale") \/ List.length (split "," args) <> 2%nat ->
      exists e, apply_transform (Some s) c = Throw e /\ transform_error e)
  /\ (forall args c,
      List.length (split "," args) <> 2%nat ->
      transform_token "scale" args c
      = Throw (Error ("invalid translate parameters: " ++ json_stringify args))).
Proof.
  split.
  - intros s toks nm args c Ht Hin Hbad. unfold apply_transform. cbn [nullish].
    exact (transform_loop_rejects s toks Ht nm args Hin Hbad (String.length s) c
             (le_n _)).
  - intros args c H. unfold transform_token.
    change (String.eqb "scale" "translate") with false.
    change (String.eqb "scale" "scale") with true. cbv iota.
    destruct (split "," args) as [|a [|b [|x l]]]; try reflexivity.
    cbn in H. contradiction.
Qed.

Lemma malformed_transform_throws_witness :
  (exists e, apply_transform (Some "scale(2) matrix(1,0,0,1,0,0)") identity = Throw e
             /\ transform_error e)
  /\ transform_token "scale" "2" identity
     = Throw (Error ("invalid translate parameters: " ++ json_stringify "2")).
Proof.
  split.
  - apply (proj1 malformed_transform_throws "scale(2) matrix(1,0,0,1,0,0)"
             [("scale", "2"); ("matrix", "1,0,0,1,0,0")] "matrix" "1,0,0,1,0,0").
    + apply Tokens_next with (rest := " matrix(1,0,0,1,0,0)"); [reflexivity|].
      apply Tokens_next with (rest := ""); [reflexivity|].
      apply Tokens_done. reflexivity.
    + right. left. reflexivity.
    + left. split; discriminate.
  - apply (proj2 malformed_transform_throws "2" identity). cbn. lia.
Defined.

(** A lower-case letter directly followed by an opening parenthesis
    occurs in the string. *)
Fixpoint calls (s : string) : bool :=
  match s with
  | String l s' =>
      (match s' with
       | String c _ => is_lower l && Ascii.eqb c "("
       | EmptyString => false
       end || calls s')%bool
  | EmptyString => false
  end.

Lemma calls_tail c s : calls (String c s) = false -> calls s = false.
Proof. cbn [calls]. intros H. apply orb_false_iff in H. exact (proj2 H). Qed.

Lemma span_lower_calls : forall t a r,
  span is_lower t = (a, String "(" r) -> a <> "" -> calls t = true.
Proof.
  induction t as [|c t IH]; intros a r E Ha.
  - cbn in E. injection E as <- _. contradiction.
  - cbn [span] in E. destruct (is_lower c) eqn:Ec.
    + destruct (span is_lower t) as [a' b] eqn:Et. injection E as <- ->.
      destruct a' as [|c' a'].
      * apply span_append in Et. cbn in Et. subst t.
        cbn [calls]. rewrite Ec. reflexivity.
      * cbn [calls]. rewrite (IH (String c' a') r eq_refl); [|discriminate].
        apply orb_true_r.
    + injection E as <- _. contradiction.
Qed.

Lemma tfrx_calls t m : tfrx t = Some m -> calls t = true.
Proof.
  unfold tfrx. destruct (span is_lower t) as [a b] eqn:E.
  destruct a as [|c nm]; [discriminate|].
  destruct b as [|c' r]; [discriminate|].
  destruct (Ascii.eqb_spec c' "("%char) as [->|Hne].
  - intros _. apply (span_lower_calls t (String c nm) r E). discriminate.
  - destruct c' as [[] [] [] [] [] [] [] []]; try discriminate.
    exfalso. apply Hne. reflexivity.
Qed.

Lemma exec_tfrx_none s : calls s = false -> exec tfrx s = None.
Proof.
  induction s as [|c s IH]; intros H; cbn [exec].
  - destruct (tfrx "") eqn:E; [apply tfrx_calls in E; discriminate E | reflexivity].
  - destruct (tfrx (String c s)) eqn:E.
    + apply tfrx_calls in E. congruence.
    + apply IH. exact (calls_tail c s H).
Qed.

(** X6.  A transform attribute in which no lower-case letter is directly
    followed by an opening parenthesis holds no token for the walker: the
    context is kept and nothing is thrown.  So [ROTATE(45)],
    [rotate (45)] and [translate 1 2] are passed over in silence. *)
Theorem transform_without_call_is_ignored (s : string) (c : TransformContext) :
  calls s = false -> apply_transform (Some s) c = Ok c.
Proof.
  intros H. unfold apply_transform. cbn [nullish].
  destruct (String.length s); cbn [transform_loop]; [reflexivity|].
  rewrite (exec_tfrx_none s H). reflexivity.
Qed.

Lemma transform_without_call_is_ignored_witness :
  apply_transform (Some "ROTATE(45) rotate (45) translate 1 2") identity = Ok identity.
Proof.
  apply (transform_without_call_is_ignored "ROTATE(45) rotate (45) translate 1 2").
  reflexivity.
Defined.

(** *** Move and line commands *)

Lemma parseFloat_undefined : parseFloat_value VUndefined = NaN.
Proof. vm_compute. reflexivity. Qed.

(** X7.  The callback of the transform step on a token [M x y] or
    [L x y] (the letter and two arguments separated by single spaces,
    followed by whatever else the token holds, [more]), under a context
    with translation [(tx, ty)] and scale [(sx, sy)]: the point becomes
    [(x*sx + tx, y*sy + ty)], and [more] (further coordinate pairs of an
    implicit line, for one) is copied without being transformed. *)
Theorem move_line_command (cmd : string) (tx ty sx sy : number)
    (x y : string) (more : list string) (invertArcs : bool) :
  cmd = "M" \/ cmd = "L" ->
  forallb (free_of " ") (x :: y :: more) = true ->
  transform_command {| translate := (tx, ty); scale := (sx, sy) |} invertArcs
    (join " " (cmd :: x :: y :: more))
  = Ok (join " " (cmd :: toString (add (mul (parseFloat x) sx) tx)
                      :: toString (add (mul (parseFloat y) sy) ty) :: more)).
Proof.
  intros Hcmd Hfree.
  assert (Hs : split " " (join " " (cmd :: x :: y :: more)) = cmd :: x :: y :: more).
  { apply (split_join " "%char cmd). cbn [forallb].
    destruct Hcmd as [-> | ->]; exact Hfree. }
  unfold transform_command. cbn [translate scale]. rewrite Hs.
  cbn [map]. cbv [arr_get arr_set nth parseFloat_value to_string].
  assert (Hm : (is_string (VString cmd) "M" || is_string (VString cmd) "L")%bool = true)
    by (destruct Hcmd as [-> | ->]; reflexivity).
  rewrite Hm. unfold arr_join. cbn [map]. rewrite (arr_join_strings more).
  reflexivity.
Qed.

Lemma move_line_command_witness :
  transform_command
    {| translate := (of_Z 10, of_Z 20); scale := (of_Z 2, of_Z (-1)) |} true
    "L 1 2 3 4"
  = Ok "L 12 18 3 4".
Proof.
  refine (eq_trans (move_line_command "L" (of_Z 10) (of_Z 20) (of_Z 2) (of_Z (-1))
                      "1" "2" ["3"; "4"] true _ _) _).
  - right. reflexivity.
  - reflexivity.
  - vm_compute. reflexivity.
Defined.

(** X8.  A token [M x] or [L x] with a single argument raises no error:
    the missing second coordinate is written as [NaN]. *)
Theorem move_line_missing_argument (cmd : string) (c : TransformContext)
    (x : string) (invertArcs : bool) :
  cmd = "M" \/ cmd = "L" ->
  free_of " " x = true ->
  transform_command c invertArcs (cmd ++ " " ++ x)
  = Ok (cmd ++ " "
        ++ toString (add (mul (parseFloat x) (fst (scale c))) (fst (translate c)))
        ++ " NaN").
Proof.
  intros Hcmd Hfree. destruct c as [[tx ty] [sx sy]].
  assert (Hs : split " " (cmd ++ " " ++ x) = [cmd; x]).
  { apply (split_join " "%char cmd [x]). cbn [forallb].
    rewrite Hfree. destruct Hcmd as [-> | ->]; reflexivity. }
  unfold transform_command. cbn [translate scale fst snd]. rewrite Hs.
  cbn [map]. cbv [arr_get arr_set nth].
  assert (Hm : (is_string (VString cmd) "M" || is_string (VString cmd) "L")%bool = true)
    by (destruct Hcmd as [-> | ->]; reflexivity).
  rewrite Hm. rewrite parseFloat_undefined.
  unfold arr_join. cbn [map to_string join parseFloat_value].
  reflexivity.
Qed.

Lemma move_line_missing_argument_witness :
  normalizePathData "M 7" identity 5 = Ok "M 7 NaN".
Proof.
  refine (eq_trans _ (f_equal
            (fun r => let* s := r in replace rx_decimal (limit_precision 5) s)
            (move_line_missing_argument "M" identity "7" false _ _))).
  - vm_compute. reflexivity.
  - left. reflexivity.
  - reflexivity.
Defined.

Lemma nan_mul_r x : mul x NaN = NaN.
Proof. destruct x; reflexivity. Qed.

Lemma nan_add_r x : add x NaN = NaN.
Proof. destruct x; reflexivity. Qed.

(** X17.  A [translate] token whose first argument does not begin with
    a number raises no error: the x translation becomes NaN, the scale is
    kept, and every [M] or [L] point transformed under such a context is
    written with [NaN] as its x coordinate. *)
Theorem translate_argument_not_a_number (a b : string) (c : TransformContext) :
  free_of "," a = true -> free_of "," b = true ->
  parseFloat (trim a) = NaN ->
  exists ty,
    transform_token "translate" (a ++ "," ++ b) c
    = Ok {| translate := (NaN, ty); scale := scale c |}
    /\ forall cmd x y invertArcs,
         cmd = "M" \/ cmd = "L" ->
         free_of " " x = true -> free_of " " y = true ->
         exists y',
           transform_command {| translate := (NaN, ty); scale := scale c |}
             invertArcs (cmd ++ " " ++ x ++ " " ++ y)
           = Ok (cmd ++ " NaN " ++ y').
Proof.
  intros Ha Hb Hnan.
  assert (Hs : split "," (a ++ "," ++ b) = [a; b]).
  { apply (split_join ","%char a [b]). cbn [forallb]. rewrite Ha, Hb. reflexivity. }
  eexists. split.
  - unfold transform_token. rewrite Hs. cbn [String.eqb]. rewrite Hnan.
    rewrite nan_mul_r. reflexivity.
  - intros cmd x y i Hcmd Hx Hy. destruct (scale c) as [sx sy] eqn:Esc.
    assert (Hp : split " " (cmd ++ " " ++ x ++ " " ++ y) = [cmd; x; y]).
    { apply (split_join " "%char cmd [x; y]). cbn [forallb].
      rewrite Hx, Hy. destruct Hcmd as [-> | ->]; reflexivity. }
    unfold transform_command. cbn [translate scale]. rewrite Hp.
    cbn [map]. cbv [arr_get arr_set nth parseFloat_value to_string].
    assert (Hm : (is_string (VString cmd) "M" || is_string (VString cmd) "L")%bool
                 = true) by (destruct Hcmd as [-> | ->]; reflexivity).
    rewrite Hm. rewrite nan_add_r.
    unfold arr_join. cbn [map to_string join].
    eexists. reflexivity.
Qed.

Lemma translate_argument_not_a_number_witness :
  exists ty,
    transform_token "translate" ("abc" ++ "," ++ "5") identity
    = Ok {| translate := (NaN, ty); scale := scale identity |}
    /\ forall cmd x y invertArcs,
         cmd = "M" \/ cmd = "L" ->
         free_of " " x = true -> free_of " " y = true ->
         exists y',
           transform_command {| translate := (NaN, ty); scale := scale identity |}
             invertArcs (cmd ++ " " ++ x ++ " " ++ y)
           = Ok (cmd ++ " NaN " ++ y').
Proof.
  apply (translate_argument_not_a_number "abc" "5" identity).
  - reflexivity.
  - reflexivity.
  - vm_compute. reflexivity.
Defined.

(** *** Strings the replacements leave alone *)

Lemma replace_from_untouched {M : Type} (matcher : string -> option (M * string))
    (replacer : M -> result string) (Q : string -> Prop) :
  (forall t, Q t -> matcher t = None) ->
  (forall c t, Q (String c t) -> Q t) ->
  forall fuel s, Q s -> (String.length s < fuel)%nat ->
  replace_from matcher replacer fuel s = Ok s.
Proof.
  intros Hnone Htail. induction fuel as [|fuel IH]; intros s Hs Hf; [lia|].
  cbn [replace_from]. rewrite (Hnone s Hs).
  destruct s as [|c s']; [reflexivity|]. cbn in Hf.
  rewrite (IH s' (Htail c s' Hs)); [reflexivity | lia].
Qed.

Lemma free_of_append sep a b :
  free_of sep (a ++ b) = (free_of sep a && free_of sep b)%bool.
Proof.
  induction a as [|c a IH]; cbn; [reflexivity|].
  rewrite IH, andb_assoc. reflexivity.
Qed.

Lemma rx_unsigned_decimal_point s :
  free_of "." s = true -> rx_unsigned_decimal s = None.
Proof.
  intros H. unfold rx_unsigned_decimal.
  destruct (span is_digit s) as [a b] eqn:E.
  destruct a as [|d ip]; [reflexivity|].
  destruct b as [|c r]; [reflexivity|].
  destruct (Ascii.eqb_spec c "."%char) as [->|Hne].
  - apply span_append in E. rewrite E, free_of_append in H.
    apply andb_true_iff in H. destruct H as [_ H]. cbn in H. discriminate H.
  - destruct c as [[] [] [] [] [] [] [] []]; try reflexivity.
    exfalso. apply Hne. reflexivity.
Qed.

Lemma rx_decimal_point s : free_of "." s = true -> rx_decimal s = None.
Proof.
  intros H. unfold rx_decimal. destruct s as [|c r].
  - apply rx_unsigned_decimal_point. exact H.
  - destruct (Ascii.eqb_spec c "-"%char) as [->|Hne].
    + cbn in H. rewrite (rx_unsigned_decimal_point r H). reflexivity.
    + destruct c as [[] [] [] [] [] [] [] []];
        try (apply rx_unsigned_decimal_point; exact H).
      exfalso. apply Hne. reflexivity.
Qed.

(** X9.  The precision step returns a string without a decimal point as
    it is, for every precision: also for one outside [0..100], which then
    raises no RangeError. *)
Theorem precision_step_without_point (precision : Z) (s : string) :
  free_of "." s = true ->
  replace rx_decimal (limit_precision precision) s = Ok s.
Proof.
  intros H. unfold replace.
  apply (replace_from_untouched rx_decimal _ (fun t => free_of "." t = true)).
  - exact rx_decimal_point.
  - intros c t Ht. cbn in Ht. apply andb_true_iff in Ht. exact (proj2 Ht).
  - exact H.
  - lia.
Qed.

Lemma precision_step_without_point_witness :
  normalizePathData "M 1 2 L 30 40" identity 1000 = Ok "M 1 2 L 30 40".
Proof.
  refine (eq_trans _ (precision_step_without_point 1000 "M 1 2 L 30 40" _)).
  - vm_compute. reflexivity.
  - reflexivity.
Defined.

(** *** Command letters the transform step rejects *)

Lemma letter_not_space c : is_letter c = true -> is_space c = false.
Proof.
  destruct c as [[] [] [] [] [] [] [] []]; vm_compute; intros H;
    first [reflexivity | discriminate H].
Qed.

Lemma space_is_space c : is_space c = false -> Ascii.eqb c " " = false.
Proof.
  intros H. destruct (Ascii.eqb_spec c " "%char) as [->|]; [|reflexivity].
  discriminate H.
Qed.

(** The string begins with a character that is not a letter and, when
    [strict], not white space either. *)
Definition argument_head (strict : bool) (s : string) : bool :=
  match s with
  | String c _ => (not_letter c && (negb strict || negb (is_space c)))%bool
  | EmptyString => false
  end.

(** The letter [l] occurs in the data, followed by such a character. *)
Definition has_token (l : ascii) (strict : bool) (data : string) : Prop :=
  exists pre rest, data = pre ++ String l rest /\ argument_head strict rest = true.

Lemma rx_command_inv_head s m rest :
  rx_command s = Some (m, rest) ->
  exists l c run, s = String l (String c run ++ rest) /\ m = String l (String c run)
                  /\ all not_letter (String c run) = true.
Proof.
  unfold rx_command. destruct s as [|l r]; [discriminate|].
  destruct (is_letter l); [|discriminate].
  destruct (span not_letter r) as [a b] eqn:E.
  destruct a as [|c a]; [discriminate|].
  intros H. injection H as <- <-.
  exists l, c, a. split; [|split].
  - rewrite (span_append _ _ _ _ E). reflexivity.
  - reflexivity.
  - exact (span_all _ _ _ _ E).
Qed.

Lemma rx_spaces_nonempty s m rest : rx_spaces s = Some (m, rest) -> m <> "".
Proof.
  unfold rx_spaces. destruct s as [|c r]; [discriminate|].
  destruct (is_space c); [|discriminate].
  destruct (span is_space r) as [[|c' a] b]; [discriminate|].
  intros H. injection H as <- _. discriminate.
Qed.

Section Rejected.
Variable l : ascii.
Variable strict : bool.
Hypothesis letter : is_letter l = true.

Lemma not_letter_l : not_letter l = false.
Proof. unfold not_letter. rewrite letter. reflexivity. Qed.

Lemma has_token_prefix a s : has_token l strict s -> has_token l strict (a ++ s).
Proof.
  intros [pre [rest [E H]]]. exists (a ++ pre), rest.
  rewrite E, append_assoc. split; [reflexivity | exact H].
Qed.

Lemma has_token_cons c s : has_token l strict s -> has_token l strict (String c s).
Proof. apply (has_token_prefix (str c)). Qed.

Lemma has_token_inv c s :
  has_token l strict (String c s) ->
  (c = l /\ argument_head strict s = true) \/ has_token l strict s.
Proof.
  intros [[|a pre] [rest [E H]]]; cbn in E; injection E as E1 E2.
  - left. subst. split; [reflexivity | exact H].
  - right. exists pre, rest. split; assumption.
Qed.

Lemma has_token_skip p run x :
  all p run = true -> p l = false ->
  has_token l strict (run ++ x) -> has_token l strict x.
Proof.
  intros Hall Hl [pre [rest [E H]]].
  destruct (locate p l run Hall Hl pre x rest E) as [pre' E'].
  exists pre', rest. split; assumption.
Qed.

Lemma has_token_nonempty s : has_token l strict s -> s <> "".
Proof. intros [[|a pre] [rest [E _]]]; rewrite E; discriminate. Qed.

Lemma space_between_keeps_token fuel :
  forall s, exists t,
    replace_from rx_value_command space_between fuel s = Ok t
    /\ (argument_head strict s = true -> argument_head strict t = true)
    /\ (has_token l strict s -> has_token l strict t).
Proof.
  induction fuel as [|fuel IH]; intros s; cbn [replace_from].
  - exists s. auto.
  - destruct (rx_value_command s) as [[[run l0] rest]|] eqn:E.
    + apply rx_value_command_inv in E. destruct E as [Es [Hall Hhead]].
      destruct (IH rest) as [t' [Et [Hh Hq]]].
      unfold space_between at 1. cbn [bind fst snd]. rewrite Et. cbn [bind].
      eexists. split; [reflexivity|]. split.
      * rewrite Es. destruct run as [|c run]; [discriminate Hhead|].
        cbn [String.append argument_head]. auto.
      * intros Hs. rewrite Es in Hs.
        apply (has_token_skip not_letter run _ Hall not_letter_l) in Hs.
        rewrite !append_assoc. apply has_token_prefix, has_token_cons.
        apply has_token_inv in Hs. destruct Hs as [[-> Hv] | Hs].
        -- exists "", t'. split; [reflexivity | exact (Hh Hv)].
        -- apply has_token_cons. exact (Hq Hs).
    + destruct s as [|a s'].
      * exists "". auto.
      * destruct (IH s') as [t' [Et [Hh Hq]]]. rewrite Et. cbn [bind].
        eexists. split; [reflexivity|]. split; [auto|].
        intros Hs. apply has_token_inv in Hs. destruct Hs as [[-> Hv] | Hs].
        -- exists "", t'. split; [reflexivity | exact (Hh Hv)].
        -- apply has_token_cons. exact (Hq Hs).
Qed.

Lemma single_space_keeps_token fuel :
  forall s, exists t,
    replace_from rx_spaces single_space fuel s = Ok t
    /\ (argument_head strict s = true -> argument_head strict t = true)
    /\ (has_token l strict s -> has_token l strict t).
Proof.
  induction fuel as [|fuel IH]; intros s; cbn [replace_from].
  - exists s. auto.
  - destruct (rx_spaces s) as [[m rest]|] eqn:E.
    + pose proof E as E'. apply rx_spaces_inv in E. destruct E as [Es Hall].
      destruct (IH rest) as [t' [Et [Hh Hq]]].
      unfold single_space at 1. cbn [bind]. rewrite Et. cbn [bind].
      eexists. split; [reflexivity|]. split.
      * rewrite Es. destruct m as [|c m];
          [exfalso; exact (rx_spaces_nonempty _ _ _ E' eq_refl)|].
        cbn [all] in Hall. apply andb_true_iff in Hall. destruct Hall as [Hc _].
        cbn [String.append argument_head]. rewrite Hc.
        destruct strict; cbn; [rewrite andb_false_r; discriminate | reflexivity].
      * intros Hs. rewrite Es in Hs.
        apply (has_token_skip is_space m _ Hall (letter_not_space l letter)) in Hs.
        apply has_token_prefix. exact (Hq Hs).
    + destruct s as [|a s'].
      * exists "". auto.
      * destruct (IH s') as [t' [Et [Hh Hq]]]. rewrite Et. cbn [bind].
        eexists. split; [reflexivity|]. split; [auto|].
        intros Hs. apply has_token_inv in Hs. destruct Hs as [[-> Hv] | Hs].
        -- exists "", t'. split; [reflexivity | exact (Hh Hv)].
        -- apply has_token_cons. exact (Hq Hs).
Qed.

Hypothesis rejected :
  strict = true \/ (l <> "M"%char /\ l <> "L"%char /\ l <> "A"%char).

Lemma first_part_differs c run (cmd : ascii) :
  not_letter c = true ->
  (negb strict || negb (is_space c))%bool = true ->
  (cmd = "M" \/ cmd = "L" \/ cmd = "A")%char ->
  is_string (arr_get (map VString (split " " (String l (String c run)))) 0)
    (str cmd) = false.
Proof.
  intros Hc Hs Hcmd.
  assert (Hl : Ascii.eqb l " " = false)
    by exact (space_is_space l (letter_not_space l letter)).
  destruct (split_head " "%char l (String c run) Hl) as [p [ps E]].
  rewrite E. cbn [map arr_get nth is_string str String.eqb].
  destruct (Ascii.eqb_spec l cmd) as [El|]; [|reflexivity].
  destruct rejected as [Hstrict | [HM [HL HA]]].
  - rewrite Hstrict in Hs. cbn in Hs.
    apply negb_true_iff in Hs. apply space_is_space in Hs.
    revert E. cbn [split]. rewrite Hl, Hs.
    destruct (split " " run) as [|q qs]; intros E; injection E as <- _;
      reflexivity.
  - subst cmd. destruct Hcmd as [H | [H | H]]; congruence.
Qed.

Lemma transform_command_rejects cx i c run :
  not_letter c = true ->
  (negb strict || negb (is_space c))%bool = true ->
  exists v, transform_command cx i (String l (String c run))
            = Throw (unsupported_command v).
Proof.
  intros Hc Hs. unfold transform_command.
  destruct (translate cx) as [tx ty]. destruct (scale cx) as [sx sy].
  change "M" with (str "M"). change "L" with (str "L"). change "A" with (str "A").
  rewrite !(first_part_differs c run) by auto.
  cbn [orb]. eexists. reflexivity.
Qed.

Lemma transform_step_rejects cx i fuel :
  forall s, (String.length s < fuel)%nat -> has_token l strict s ->
  exists v, replace_from rx_command (transform_command cx i) fuel s
            = Throw (unsupported_command v).
Proof.
  induction fuel as [|fuel IH]; intros s Hf Hs; [lia|].
  cbn [replace_from].
  destruct (rx_command s) as [[m rest]|] eqn:E.
  - pose proof (rx_command_shrinking _ _ _ E) as Hlt.
    destruct (rx_command_inv_head _ _ _ E) as [l0 [c [run [Es [Em Hall]]]]].
    destruct (transform_command cx i m) as [r|e] eqn:Ec.
    + cbn [bind].
      assert (Hrest : has_token l strict rest).
      { rewrite Es in Hs. apply has_token_inv in Hs.
        destruct Hs as [[-> Hv] | Hs].
        - cbn [String.append argument_head] in Hv.
          apply andb_true_iff in Hv. destruct Hv as [Hc Hsp].
          destruct (transform_command_rejects cx i c run Hc Hsp) as [v Ev].
          rewrite Em in Ec. rewrite Ev in Ec. discriminate Ec.
        - exact (has_token_skip not_letter (String c run) _ Hall not_letter_l Hs). }
      destruct (IH rest ltac:(lia) Hrest) as [v Ev]. rewrite Ev.
      exists v. reflexivity.
    + cbn [bind]. apply transform_command_throws in Ec.
      destruct Ec as [v ->]. exists v. reflexivity.
  - destruct s as [|a s'].
    + exfalso. exact (has_token_nonempty _ Hs eq_refl).
    + apply has_token_inv in Hs. destruct Hs as [[-> Hv] | Hs].
      * exfalso. revert E. unfold rx_command. rewrite letter.
        destruct s' as [|c r]; [discriminate Hv|].
        cbn [argument_head] in Hv. apply andb_true_iff in Hv.
        destruct Hv as [Hc _]. cbn [span]. rewrite Hc.
        destruct (span not_letter r). discriminate.
      * cbn in Hf. destruct (IH s' ltac:(lia) Hs) as [v Ev].
        rewrite Ev. exists v. reflexivity.
Qed.

Lemma normalizePathData_rejects data cx precision :
  has_token l strict data ->
  exists v, normalizePathData data cx precision = Throw (unsupported_command v).
Proof.
  intros H. unfold normalizePathData, replace.
  destruct (space_between_keeps_token (S (String.length data)) data)
    as [s1 [E1 [_ H1]]].
  rewrite E1. cbn [bind].
  destruct (single_space_keeps_token (S (String.length s1)) s1)
    as [s2 [E2 [_ H2]]].
  rewrite E2. cbn [bind].
  destruct (transform_step_rejects cx
              (ltb (mul (fst (scale cx)) (snd (scale cx))) (of_Z 0))
              (S (String.length s2)) s2 ltac:(lia) (H2 (H1 H))) as [v Ev].
  rewrite Ev. exists v. reflexivity.
Qed.

End Rejected.

(** X10.  Path data in which a letter is directly followed by a
    character [c] that is not a letter makes [normalizePathData] throw the
    unsupported-path-command error, from every context and at every
    precision, in two cases: the letter is not [M], [L] or [A] (so every
    relative command [m], [l], [a] and every [H], [V], [C], [S], [Q], [T]
    with arguments); or [c] is not white space either (so [M], [L] and
    [A] written against their first argument, as in [M1 1L101 101]). *)
Theorem unsupported_command_letters (data : string) (cx : TransformContext)
    (precision : Z) (pre post : string) (l c : ascii) :
  data = pre ++ String l (String c post) ->
  is_letter l = true -> is_letter c = false ->
  is_space c = false \/ (l <> "M" /\ l <> "L" /\ l <> "A")%char ->
  exists v, normalizePathData data cx precision = Throw (unsupported_command v).
Proof.
  intros Hd Hl Hc [Hs | Hml].
  - apply (normalizePathData_rejects l true Hl (or_introl eq_refl)).
    exists pre, (String c post). split; [exact Hd|].
    cbn [argument_head]. unfold not_letter. rewrite Hc, Hs. reflexivity.
  - apply (normalizePathData_rejects l false Hl (or_intror Hml)).
    exists pre, (String c post). split; [exact Hd|].
    cbn [argument_head]. unfold not_letter. rewrite Hc. reflexivity.
Qed.

Lemma unsupported_command_letters_witness :
  (exists v, normalizePathData "M1 1L101 101" identity 5
             = Throw (unsupported_command v))
  /\ (exists v, normalizePathData "M 1 1 l 5 5" identity 5
                = Throw (unsupported_command v)).
Proof.
  split.
  - apply (unsupported_command_letters "M1 1L101 101" identity 5
             "" " 1L101 101" "M" "1"); try reflexivity.
    left. reflexivity.
  - apply (unsupported_command_letters "M 1 1 l 5 5" identity 5
             "M 1 1 " "5 5" "l" " "); try reflexivity.
    right. repeat split; discriminate.
Defined.

Lemma letter_not_digit c : is_letter c = true -> is_digit c = false.
Proof.
  destruct c as [[] [] [] [] [] [] [] []]; vm_compute; intros H;
    first [reflexivity | discriminate H].
Qed.

Lemma letters_tail c t : all is_letter (String c t) = true -> all is_letter t = true.
Proof. cbn. intros H. apply andb_true_iff in H. exact (proj2 H). Qed.

Lemma span_letters_first p s :
  (forall c, is_letter c = true -> p c = false) ->
  all is_letter s = true -> span p s = (EmptyString, s).
Proof.
  intros Hp. destruct s as [|c s]; [reflexivity|]. cbn.
  intros H. apply andb_true_iff in H. rewrite (Hp c (proj1 H)). reflexivity.
Qed.

Lemma letter_not_not_letter c : is_letter c = true -> not_letter c = false.
Proof. unfold not_letter. intros ->. reflexivity. Qed.

(** X11.  Path data made of letters only ([Z], [MZ], a lone [C]) is
    returned as it is, from every context and at every precision: a
    command letter without arguments is never looked at. *)
Theorem letters_only_data_unchanged (data : string) (cx : TransformContext)
    (precision : Z) :
  all is_letter data = true -> normalizePathData data cx precision = Ok data.
Proof.
  intros H. unfold normalizePathData, replace.
  rewrite (replace_from_untouched rx_value_command space_between
             (fun t => all is_letter t = true)); cbn [bind];
    [| | exact letters_tail | exact H | lia].
  2:{ intros t Ht. unfold rx_value_command.
      rewrite (span_letters_first not_letter t letter_not_not_letter Ht).
      reflexivity. }
  rewrite (replace_from_untouched rx_spaces single_space
             (fun t => all is_letter t = true)); cbn [bind];
    [| | exact letters_tail | exact H | lia].
  2:{ intros t Ht. unfold rx_spaces. destruct t as [|c r]; [reflexivity|].
      cbn in Ht. apply andb_true_iff in Ht.
      rewrite (letter_not_space c (proj1 Ht)). reflexivity. }
  rewrite (replace_from_untouched rx_command _
             (fun t => all is_letter t = true)); cbn [bind];
    [| | exact letters_tail | exact H | lia].
  2:{ intros t Ht. unfold rx_command. destruct t as [|c r]; [reflexivity|].
      destruct (is_letter c); [|reflexivity].
      rewrite (span_letters_first not_letter r letter_not_not_letter
                 (letters_tail c r Ht)).
      reflexivity. }
  apply (replace_from_untouched rx_decimal _ (fun t => all is_letter t = true));
    [| exact letters_tail | exact H | lia].
  intros t Ht. unfold rx_decimal, rx_unsigned_decimal.
  rewrite (span_letters_first is_digit t letter_not_digit Ht).
  destruct t as [|c r]; [reflexivity|].
  cbn in Ht. apply andb_true_iff in Ht. destruct Ht as [Hc Hr].
  destruct (Ascii.eqb_spec c "-"%char) as [->|Hne]; [discriminate Hc|].
  destruct c as [[] [] [] [] [] [] [] []]; try reflexivity.
  exfalso. apply Hne. reflexivity.
Qed.

Lemma letters_only_data_unchanged_witness :
  normalizePathData "MZ" identity 5 = Ok "MZ".
Proof. apply (letters_only_data_unchanged "MZ" identity 5). reflexivity. Defined.

(** *** The viewBox attribute *)

Lemma walker_error_not_viewport p e :
  walker_error p e ->
  e <> missing_root /\ e <> missing_viewBox /\ e <> invalid_viewBox.
Proof.
  intros H.
  destruct H as [|args|nm|nm Hk|v|message Hp];
    try (repeat split; intros He;
         unfold missing_root, missing_viewBox, invalid_viewBox, style_transform,
           invalid_parameters, unsupported_transform, unsupported_command in He;
         cbn [String.append] in He; discriminate He).
  unfold unsupported_kind in Hk. rewrite !orb_true_iff, !String.eqb_eq in Hk.
  destruct Hk as [[[[-> | ->] | ->] | ->] | ->];
    repeat split; intros He; discriminate He.
Qed.

(** X12.  A non-empty [viewBox] with fewer than four fields between
    single spaces (three numbers, or four numbers separated by commas) is
    rejected with the invalid-viewBox error, whatever the fields and the
    padding factor are. *)
Theorem viewBox_needs_four_fields (root : node) (f : number) (vb : string) :
  getAttrValue root "viewBox" = Some vb -> vb <> "" ->
  (List.length (split " " vb) < 4)%nat ->
  viewport root f = Throw invalid_viewBox.
Proof.
  intros H Hne Hlen. rewrite (viewport_eq root f vb H Hne).
  rewrite (parsed_nan_derived_nan vb f); [reflexivity|].
  assert (E : parsed vb 3 = NaN).
  { unfold parsed, arr_get. rewrite nth_overflow.
    - exact parseFloat_undefined.
    - rewrite length_map. lia. }
  cbn [existsb]. rewrite E. cbn [isNaN]. rewrite !orb_true_r. reflexivity.
Qed.

Lemma viewBox_needs_four_fields_witness :
  viewport (element "svg" [("viewBox", "0,0,100,100")] []) default_padding
  = Throw invalid_viewBox.
Proof.
  apply (viewBox_needs_four_fields _ default_padding "0,0,100,100").
  - reflexivity.
  - discriminate.
  - cbn. lia.
Defined.

(** X13.  The conversion throws the missing-viewBox error exactly when
    the tree has a root whose [viewBox] attribute is absent or empty; an
    empty attribute is reported as missing, not as invalid. *)
Theorem missing_viewBox_iff (tree : node) (o : options) :
  sketchToIconTree tree o = Throw missing_viewBox <->
  exists root, findRoot tree = Some root
    /\ (getAttrValue root "viewBox" = None \/ getAttrValue root "viewBox" = Some "").
Proof.
  unfold sketchToIconTree. split.
  - destruct (findRoot tree) as [root|]; [|discriminate].
    intros H. exists root. split; [reflexivity|].
    destruct (getAttrValue root "viewBox") as [[|c vb]|] eqn:Ea; auto.
    exfalso. revert H.
    rewrite (viewport_eq root _ (String c vb) Ea) by discriminate.
    destruct (existsb isNaN _); cbn [bind]; [discriminate|].
    destruct (extractPaths _ root _ _) as [paths|e] eqn:Ep; cbn [bind];
      [discriminate|].
    intros H. injection H as ->. apply extractPaths_throws in Ep.
    exact (proj1 (proj2 (walker_error_not_viewport _ _ Ep)) eq_refl).
  - intros [root [-> Ha]]. unfold viewport.
    destruct Ha as [-> | ->]; reflexivity.
Qed.

(** *** The collected paths *)

(** X14.  What the walker returns for a node does not depend on the
    paths collected before it: it is those paths followed by what the
    walker collects from the node starting with none, and it throws
    exactly when the walk from none throws, with the same exception.
    Nothing collected earlier is dropped, changed or reordered. *)
Theorem walker_only_appends (precision : Z) (n : node) (c : TransformContext)
    (paths : list string) :
  extractPaths precision n c paths =
    let* l := extractPaths precision n c [] in Ok (paths ++ l)%list.
Proof.
  rewrite (extractPaths_traversal_order precision n c paths).
  rewrite (extractPaths_traversal_order precision n c []).
  destruct (paths_in_traversal_order precision n c); reflexivity.
Qed.

(** *** The command line *)

Section Script.
Variable parseFragment : string -> node.
Variable resolve : string -> string.
Variable readFile : string -> result string.
Variable writeFile : string -> string -> result unit.

Definition script : Cli.arguments -> list Cli.event :=
  Cli.main parseFragment resolve readFile writeFile.


Definition touches_files (e : Cli.event) : bool :=
  match e with
  | Cli.ReadFile _ | Cli.WriteFile _ _ => true
  | _ => false
  end.

Lemma script_without_usage_error (args : Cli.arguments) :
  truthy (Cli.input args) = true -> truthy (Cli.output args) = true ->
  ~ In (Cli.Exit 2) (script args).
Proof.
  intros Hi Ho. unfold script, Cli.main, Cli.body. rewrite Hi, Ho. cbn [negb].
  destruct (readFile _) as [text|e];
    [destruct (sketchToIcon _ _) as [out|e];
     [destruct (writeFile _ out) as [u|e]|]|];
    cbn; intros H; repeat (destruct H as [H | H]; [discriminate H|]); exact H.
Qed.

(** X15.  The script exits with code 2 exactly when [--input] or
    [--output] is missing or empty; it then prints the message for the
    first missing one and the usage text, and neither reads nor writes a
    file. *)
Theorem usage_error_exit_code (args : Cli.arguments) :
  (In (Cli.Exit 2) (script args) <->
   truthy (Cli.input args) = false \/ truthy (Cli.output args) = false)
  /\ (truthy (Cli.input args) = false ->
      script args = [Cli.ConsoleError "--input or -i is required";
                     Cli.ConsoleError Cli.usage; Cli.Exit 2])
  /\ (truthy (Cli.input args) = true -> truthy (Cli.output args) = false ->
      script args = [Cli.ConsoleError "--output or -o is required";
                     Cli.ConsoleError Cli.usage; Cli.Exit 2])
  /\ (In (Cli.Exit 2) (script args) -> existsb touches_files (script args) = false).
Proof.
  assert (A : truthy (Cli.input args) = false ->
              script args = [Cli.ConsoleError "--input or -i is required";
                             Cli.ConsoleError Cli.usage; Cli.Exit 2]).
  { intros Hi. unfold script, Cli.main, Cli.body. rewrite Hi. reflexivity. }
  assert (B : truthy (Cli.input args) = true -> truthy (Cli.output args) = false ->
              script args = [Cli.ConsoleError "--output or -o is required";
                             Cli.ConsoleError Cli.usage; Cli.Exit 2]).
  { intros Hi Ho. unfold script, Cli.main, Cli.body. rewrite Hi, Ho. reflexivity. }
  assert (C : In (Cli.Exit 2) (script args) ->
              truthy (Cli.input args) = false \/ truthy (Cli.output args) = false).
  { intros H. destruct (truthy (Cli.input args)) eqn:Hi; [|left; reflexivity].
    destruct (truthy (Cli.output args)) eqn:Ho; [|right; reflexivity].
    exfalso. exact (script_without_usage_error args Hi Ho H). }
  split; [|split; [exact A|split; [exact B|]]].
  - split; [exact C|].
    intros [Hi | Ho].
    + rewrite (A Hi). right. right. left. reflexivity.
    + destruct (truthy (Cli.input args)) eqn:Hi.
      * rewrite (B eq_refl Ho). right. right. left. reflexivity.
      * rewrite (A eq_refl). right. right. left. reflexivity.
  - intros H. destruct (C H) as [Hi | Ho].
    + rewrite (A Hi). reflexivity.
    + destruct (truthy (Cli.input args)) eqn:Hi.
      * rewrite (B eq_refl Ho). reflexivity.
      * rewrite (A eq_refl). reflexivity.
Qed.


End Script.

Lemma usage_error_exit_code_witness :
  script (fun _ => offset_sketch) (fun p => "/cwd/" ++ p)
    (fun _ => Ok "<svg>") (fun _ _ => Ok tt)
    {| Cli.input := Some "in.svg"; Cli.output := Some "";
       Cli.exportedPaddingFactor := None; Cli.fill := None;
       Cli.fillRule := None; Cli.precision := None |}
  = [Cli.ConsoleError "--output or -o is required";
     Cli.ConsoleError Cli.usage; Cli.Exit 2].
Proof.
  apply (proj1 (proj2 (proj2 (usage_error_exit_code
           (fun _ => offset_sketch) (fun p => "/cwd/" ++ p)
           (fun _ => Ok "<svg>") (fun _ _ => Ok tt) _)))); reflexivity.
Defined.



End Extras.






